(** * A browser task list: the store of [src/main.ts] and its handlers

    The program keeps two process-level variables, [todos] (an array of
    task objects) and [editingId], and mutates them from click handlers
    and from the start-up fetch.  The handlers are embedded in two
    layers.  The functions on a [Store] are the handlers while [todos]
    holds a list and with the text of the edit field in hand; the values
    the handlers read from their environment (the text of an input field,
    [Date.now()], the string made by [new Date().toLocaleString()], the
    outcome of the fetch) are arguments.  The functions on a [Page] add
    the paths on which a handler throws: a response body that is not a
    list, and a save button with no edit field in front of its group. *)

From Stdlib Require Import DecimalZ.
From stdpp Require Import base numbers list strings.

(** ** JavaScript strings and [String.prototype.trim] *)

Module JS.

(** A JavaScript string is a sequence of UTF-16 code units. *)
Definition jsstring := list N.

(** ASCII text as a JavaScript string. *)
Definition js (s : string) : jsstring :=
  Ascii.N_of_ascii <$> String.list_ascii_of_string s.

(** ECMAScript [WhiteSpace]: TAB, VT, FF, ZWNBSP and the code points of
    category Zs. *)
Definition isWhiteSpace (c : N) : bool :=
  ((c =? 0x0009) || (c =? 0x000B) || (c =? 0x000C) || (c =? 0xFEFF)
   || (c =? 0x0020) || (c =? 0x00A0) || (c =? 0x1680)
   || ((0x2000 <=? c) && (c <=? 0x200A))
   || (c =? 0x202F) || (c =? 0x205F) || (c =? 0x3000))%N.

(** ECMAScript [LineTerminator]: LF, CR, LS, PS. *)
Definition isLineTerminator (c : N) : bool :=
  ((c =? 0x000A) || (c =? 0x000D) || (c =? 0x2028) || (c =? 0x2029))%N.

(** What [trim] strips: white space and line terminators. *)
Definition isTrimmed (c : N) : bool := isWhiteSpace c || isLineTerminator c.

Fixpoint trimStart (s : jsstring) : jsstring :=
  match s with
  | [] => []
  | c :: s' => if isTrimmed c then trimStart s' else s
  end.

Definition trimEnd (s : jsstring) : jsstring :=
  reverse (trimStart (reverse s)).

Definition trim (s : jsstring) : jsstring := trimEnd (trimStart s).

(** [ToBoolean] on a string: only the empty string is falsy. *)
Definition truthy (s : jsstring) : bool :=
  match s with
  | [] => false
  | _ :: _ => true
  end.

End JS.

Import JS.

(** ** The data model *)

(** [interface Todo]; the two optional fields are absent ([None]) or
    hold a string.  Identifiers are the integers that [Date.now()] and
    the seed list supply. *)
Record Todo := mkTodo {
  id : Z;
  title : jsstring;
  completed : bool;
  completedTime : option jsstring;
  modifiedTime : option jsstring
}.

(** Field assignments on a task object. *)
Definition set_title (v : jsstring) (t : Todo) : Todo :=
  mkTodo (id t) v (completed t) (completedTime t) (modifiedTime t).
Definition set_completed (v : bool) (t : Todo) : Todo :=
  mkTodo (id t) (title t) v (completedTime t) (modifiedTime t).
Definition set_completedTime (v : jsstring) (t : Todo) : Todo :=
  mkTodo (id t) (title t) (completed t) (Some v) (modifiedTime t).
Definition delete_completedTime (t : Todo) : Todo :=
  mkTodo (id t) (title t) (completed t) None (modifiedTime t).
Definition set_modifiedTime (v : jsstring) (t : Todo) : Todo :=
  mkTodo (id t) (title t) (completed t) (completedTime t) (Some v).

(** Why an await of [fetchTodos] rejected: [fetch] did (the network), or
    [response.json()] did (the body is not JSON). *)
Inductive FetchError :=
| NetworkFailure
| ParseFailure.

(** The outcomes of the request after which [todos] holds a list: [fetch]
    or [response.json()] rejects with [e], or the body parses to a list
    of task objects (the cast [as Todo[]] is taken at its word for the
    elements of a list).  The remaining outcome, a body that parses to a
    value that is not a list, is [ParsedNonList] below. *)
Inductive FetchOutcome :=
| Rejected (e : FetchError)
| Parsed (data : list Todo).

(** What the [catch] of [fetchTodos] passes to [console.error]: the
    rejection of an await, or the [TypeError] that [renderTodos] throws
    at [todos.forEach] when [todos] is not a list. *)
Inductive Logged :=
| FetchFailed (e : FetchError)
| RenderFailed.

(** The process-level state while [todos] holds a list: [todos],
    [editingId], and what was written with [console.error]. *)
Record Store := mkStore {
  todos : list Todo;
  editingId : option Z;
  console : list Logged
}.

Definition set_todos (l : list Todo) (s : Store) : Store :=
  mkStore l (editingId s) (console s).
Definition set_editingId (e : option Z) (s : Store) : Store :=
  mkStore (todos s) e (console s).
Definition console_error (e : Logged) (s : Store) : Store :=
  mkStore (todos s) (editingId s) (console s ++ [e]).

(** The state when the script starts. *)
Definition init : Store := mkStore [] None [].

(** ** The operations *)

(** [todos.find(t => t.id === i)]: the first task with identifier [i],
    with its position in the array. *)
Definition find (i : Z) (l : list Todo) : option (nat * Todo) :=
  list_find (λ t, id t = i) l.

(** [fetchTodos] on a store, once its awaits have settled with an
    outcome [r] that leaves a list in [todos]; [fetchTodos] below has
    every outcome. *)
Definition fetchTodos_list (r : FetchOutcome) (s : Store) : Store :=
  match r with
  | Parsed data => set_todos data s
  | Rejected e => console_error (FetchFailed e) s
  end.

(** The click handler of the add button; [text] is the value of the
    input field, [now] is [Date.now()], [stamp] is
    [new Date().toLocaleString()]. *)
Definition addBtn_click (text : jsstring) (now : Z) (stamp : jsstring)
    (s : Store) : Store :=
  if negb (truthy (trim text)) then s
  else
    let newTodo := mkTodo now text false None (Some stamp) in
    set_todos (todos s ++ [newTodo]) s.

(** The click handler of a delete button carrying [data-id = idToDelete]. *)
Definition deleteBtn_click (idToDelete : Z) (s : Store) : Store :=
  set_todos (filter (λ todo, id todo ≠ idToDelete) (todos s)) s.

(** The click handler of a change button. *)
Definition changeBtn_click (i : Z) (s : Store) : Store :=
  set_editingId (Some i) s.

(** The click handler of a save button, from the search of the task on
    ([main.ts] lines 187 to 199); [newText] is the string that the lines
    before read from the edit field in front of the button group.  The
    clicks that find no such string are in [saveBtn_handler] below. *)
Definition saveBtn_click (i : Z) (newText : jsstring) (stamp : jsstring)
    (s : Store) : Store :=
  let s' :=
    match find i (todos s) with
    | Some (k, todo) =>
        if truthy (trim newText) then
          let todo := set_title newText todo in
          let todo := delete_completedTime todo in
          let todo := set_completed false todo in
          let todo := set_modifiedTime stamp todo in
          set_todos (<[k := todo]> (todos s)) s
        else s
    | None => s
    end in
  set_editingId None s'.

(** The click handler of a cancel button. *)
Definition cancelBtn_click (s : Store) : Store :=
  set_editingId None s.

(** The click handler of a complete button; [timeString] is
    [new Date().toLocaleString()]. *)
Definition completeBtn_click (idToComplete : Z) (timeString : jsstring)
    (s : Store) : Store :=
  let todo := find idToComplete (todos s) in
  if (match todo with Some (_, t) => completed t | None => false end) then s
  else
    match todo with
    | Some (k, t) =>
        let t := set_completed true t in
        let t := set_completedTime timeString t in
        set_todos (<[k := t]> (todos s)) s
    | None => s
    end.

(** ** Runs of the page while [todos] holds a list *)

(** What can happen to the page and leaves a list in [todos]: the fetch
    settles with a [FetchOutcome], or a button is clicked; a click on a
    save button comes with the text its handler reads.  [PageEvent] below
    has the other events. *)
Inductive event :=
| Fetched (r : FetchOutcome)
| AddClick (text : jsstring) (now : Z) (stamp : jsstring)
| DeleteClick (i : Z)
| ChangeClick (i : Z)
| SaveClick (i : Z) (newText : jsstring) (stamp : jsstring)
| CancelClick
| CompleteClick (i : Z) (timeString : jsstring).

Definition step (s : Store) (e : event) : Store :=
  match e with
  | Fetched r => fetchTodos_list r s
  | AddClick text now stamp => addBtn_click text now stamp s
  | DeleteClick i => deleteBtn_click i s
  | ChangeClick i => changeBtn_click i s
  | SaveClick i newText stamp => saveBtn_click i newText stamp s
  | CancelClick => cancelBtn_click s
  | CompleteClick i timeString => completeBtn_click i timeString s
  end.

(** The store after the events of [evs], oldest first. *)
Definition run (s : Store) (evs : list event) : Store :=
  foldl step s evs.

(** ** The page, whatever [todos] holds *)

(** The process-level state: [todos] holds a list ([Listed]), or a value
    that is not a list, assigned by [fetchTodos] from a response body
    ([Unlisted], with [editingId] and what was written with
    [console.error]).  Every JSON value that is not a list behaves alike
    here: [forEach], [push], [filter] and [find] are not functions on it,
    so the calls throw a [TypeError]. *)
Inductive Page :=
| Listed (s : Store)
| Unlisted (marker : option Z) (log : list Logged).

Definition page_marker (p : Page) : option Z :=
  match p with
  | Listed s => editingId s
  | Unlisted m _ => m
  end.

Definition page_log (p : Page) : list Logged :=
  match p with
  | Listed s => console s
  | Unlisted _ lg => lg
  end.

Definition page_error (e : Logged) (p : Page) : Page :=
  match p with
  | Listed s => Listed (console_error e s)
  | Unlisted m lg => Unlisted m (lg ++ [e])
  end.

(** How a handler ends: it runs to its end, or an exception leaves it. *)
Inductive Completion :=
| Returns
| Throws.

(** Every outcome of the request: one of [FetchOutcome], or the body
    parses to a value that is not a list. *)
Inductive FetchResult :=
| Outcome (r : FetchOutcome)
| ParsedNonList.

(** [fetchTodos], once its awaits have settled.  A rejection goes to the
    [catch], which logs it.  A parsed body is assigned to [todos] and
    [renderTodos] is called; on a list it renders, on any other value it
    throws at [todos.forEach], inside the [try], and the [catch] logs the
    error: the value stays in [todos].  The function itself never
    throws. *)
Definition fetchTodos (r : FetchResult) (p : Page) : Page :=
  match r with
  | Outcome (Rejected e) => page_error (FetchFailed e) p
  | Outcome (Parsed data) => Listed (mkStore data (page_marker p) (page_log p))
  | ParsedNonList => Unlisted (page_marker p) (page_log p ++ [RenderFailed])
  end.

(** What the save handler finds in front of the button group
    ([btnGroup.previousElementSibling] and its [value]): no element, an
    element whose [value] is not a string, or one whose [value] is the
    string [v].  The edit template puts the edit input there; the title
    is interpolated into that template unescaped, so the markup of a
    title can put another element there. *)
Inductive EditField :=
| NoElement
| NotString
| Value (v : jsstring).

(** The click handler of the add button.  With a list in [todos] it is
    [addBtn_click]; otherwise a blank text returns at the guard and any
    other text throws at [todos.push]. *)
Definition addBtn_handler (text : jsstring) (now : Z) (stamp : jsstring)
    (p : Page) : Page * Completion :=
  match p with
  | Listed s => (Listed (addBtn_click text now stamp s), Returns)
  | Unlisted _ _ =>
      if negb (truthy (trim text)) then (p, Returns) else (p, Throws)
  end.

(** The click handler of a delete button; without a list it throws at
    [todos.filter], before the assignment. *)
Definition deleteBtn_handler (idToDelete : Z) (p : Page)
    : Page * Completion :=
  match p with
  | Listed s => (Listed (deleteBtn_click idToDelete s), Returns)
  | Unlisted _ _ => (p, Throws)
  end.

(** The click handler of a change button; without a list [editingId] is
    assigned and then [renderTodos] throws. *)
Definition changeBtn_handler (i : Z) (p : Page) : Page * Completion :=
  match p with
  | Listed s => (Listed (changeBtn_click i s), Returns)
  | Unlisted _ lg => (Unlisted (Some i) lg, Throws)
  end.

(** The click handler of a save button.  With no element in front of
    the button group, [input.value] throws.  Otherwise [todos.find] is
    called, which throws without a list; with a list, [newText.trim()] is
    evaluated only when a task was found, and throws when [newText] is
    not a string; in every other case the handler goes on as
    [saveBtn_click].  When it throws, nothing has been assigned. *)
Definition saveBtn_handler (i : Z) (field : EditField) (stamp : jsstring)
    (p : Page) : Page * Completion :=
  match field, p with
  | NoElement, _ => (p, Throws)
  | _, Unlisted _ _ => (p, Throws)
  | NotString, Listed s =>
      match find i (todos s) with
      | Some _ => (p, Throws)
      | None => (Listed (set_editingId None s), Returns)
      end
  | Value v, Listed s => (Listed (saveBtn_click i v stamp s), Returns)
  end.

(** The click handler of a cancel button; without a list [editingId] is
    cleared and then [renderTodos] throws. *)
Definition cancelBtn_handler (p : Page) : Page * Completion :=
  match p with
  | Listed s => (Listed (cancelBtn_click s), Returns)
  | Unlisted _ lg => (Unlisted None lg, Throws)
  end.

(** The click handler of a complete button; without a list it throws at
    [todos.find]. *)
Definition completeBtn_handler (idToComplete : Z) (timeString : jsstring)
    (p : Page) : Page * Completion :=
  match p with
  | Listed s => (Listed (completeBtn_click idToComplete timeString s), Returns)
  | Unlisted _ _ => (p, Throws)
  end.

(** What can happen to the page.  ([renderTodos] empties the list element
    before it throws, so a page without a list shows no task buttons; the
    clicks on them are events here all the same.) *)
Inductive PageEvent :=
| PFetched (r : FetchResult)
| PAddClick (text : jsstring) (now : Z) (stamp : jsstring)
| PDeleteClick (i : Z)
| PChangeClick (i : Z)
| PSaveClick (i : Z) (field : EditField) (stamp : jsstring)
| PCancelClick
| PCompleteClick (i : Z) (timeString : jsstring).

Definition page_step (p : Page) (e : PageEvent) : Page * Completion :=
  match e with
  | PFetched r => (fetchTodos r p, Returns)
  | PAddClick text now stamp => addBtn_handler text now stamp p
  | PDeleteClick i => deleteBtn_handler i p
  | PChangeClick i => changeBtn_handler i p
  | PSaveClick i field stamp => saveBtn_handler i field stamp p
  | PCancelClick => cancelBtn_handler p
  | PCompleteClick i timeString => completeBtn_handler i timeString p
  end.

(** The page after the events of [evs], oldest first. *)
Definition page_run (p : Page) (evs : list PageEvent) : Page :=
  foldl (λ q e, fst (page_step q e)) p evs.

(** How the handlers of the events of [evs] end, in order. *)
Fixpoint page_trace (p : Page) (evs : list PageEvent) : list Completion :=
  match evs with
  | [] => []
  | e :: evs' => snd (page_step p e) :: page_trace (fst (page_step p e)) evs'
  end.

(** An event of the list layer as an event of the page. *)
Definition lift (e : event) : PageEvent :=
  match e with
  | Fetched r => PFetched (Outcome r)
  | AddClick text now stamp => PAddClick text now stamp
  | DeleteClick i => PDeleteClick i
  | ChangeClick i => PChangeClick i
  | SaveClick i newText stamp => PSaveClick i (Value newText) stamp
  | CancelClick => PCancelClick
  | CompleteClick i timeString => PCompleteClick i timeString
  end.

(** ** Blank text *)

(** A text is blank when nothing is left of it after trimming; this is
    when [!text.trim()] holds in the handlers. *)
Definition blank (text : jsstring) : Prop := trim text = [].

(** ** Predicates on tasks, events and runs *)

(** A completion timestamp is present only on a completed task. *)
Definition completion_ok (t : Todo) : Prop :=
  is_Some (completedTime t) → completed t = true.

(** The tasks of a parsed seed list all satisfy [P]. *)
Definition seed_satisfies (P : Todo → Prop) (e : event) : Prop :=
  match e with
  | Fetched (Parsed data) => Forall P data
  | _ => True
  end.

(** The event is a save that wrote title [title r] and modified
    timestamp [m] into a task with the identifier of [r]. *)
Definition edited_by (r : Todo) (m : jsstring) (e : event) : Prop :=
  match e with
  | SaveClick i newText stamp =>
      ¬ blank newText ∧ id r = i ∧ title r = newText ∧ m = stamp
  | _ => False
  end.

(** The event is an add that created a task with the identifier and
    title of [r] and modified timestamp [m]. *)
Definition created_by (r : Todo) (m : jsstring) (e : event) : Prop :=
  match e with
  | AddClick text now stamp =>
      ¬ blank text ∧ id r = now ∧ title r = text ∧ m = stamp
  | _ => False
  end.

(** The record a non-blank save leaves in place of [t]. *)
Definition edited (newText stamp : jsstring) (t : Todo) : Todo :=
  mkTodo (id t) newText false None (Some stamp).

(** The record a completion leaves in place of [t]. *)
Definition done_at (timeString : jsstring) (t : Todo) : Todo :=
  mkTodo (id t) (title t) true (Some timeString) (modifiedTime t).

(** [l'] differs from [l] in at most one place, and only in a task whose
    identifier is [i]: same length, same identifiers in the same places,
    every task with another identifier is where it was. *)
Definition frame_of (i : Z) (l l' : list Todo) : Prop :=
  length l' = length l
  ∧ id <$> l' = id <$> l
  ∧ (∀ (k : nat) (r : Todo), l !! k = Some r → id r ≠ i → l' !! k = Some r)
  ∧ (∃ k : nat, ∀ j : nat, j ≠ k → l' !! j = l !! j).

(** Two stores with the same tasks and the same editing marker. *)
Definition same_tasks (s1 s2 : Store) : Prop :=
  todos s1 = todos s2 ∧ editingId s1 = editingId s2.

(** The event is a click on a save button. *)
Definition is_save (e : event) : bool :=
  match e with
  | SaveClick _ _ _ => true
  | _ => false
  end.

(** Every modified timestamp in [l] was written by an add or by a save
    among the events [evs]. *)
Definition provenance (evs : list event) (l : list Todo) : Prop :=
  ∀ (r : Todo) (m : jsstring),
    r ∈ l → modifiedTime r = Some m →
    Exists (created_by r m) evs ∨ Exists (edited_by r m) evs.

(** The identifiers of a list of tasks, in order. *)
Definition ids (l : list Todo) : list Z := id <$> l.

(** The event brings no identifier that the store [s] already holds: an
    add reads a clock value that no task carries, a seed list has
    pairwise distinct identifiers. *)
Definition fresh_id (s : Store) (e : event) : Prop :=
  match e with
  | AddClick _ now _ => now ∉ ids (todos s)
  | Fetched (Parsed data) => NoDup (ids data)
  | _ => True
  end.

(** Every event of the run is fresh for the store it arrives at. *)
Fixpoint fresh_run (s : Store) (evs : list event) : Prop :=
  match evs with
  | [] => True
  | e :: evs => fresh_id s e ∧ fresh_run (step s e) evs
  end.

(** ** Stores used as examples *)

(** The store after the seed [{id: 1, title: "A"}] arrived and its change
    button was clicked. *)
Definition editing_A : Store :=
  run init [Fetched (Parsed [mkTodo 1 (js "A") false None None]); ChangeClick 1].

(** The store of the scenario: task 1, completed, in edit mode. *)
Definition editing_done_A : Store :=
  mkStore [mkTodo 1 (js "A") true (Some (js "t1")) None] (Some 1%Z) [].

(** The store of the completion scenario: task 1, not completed. *)
Definition open_A : Store :=
  mkStore [mkTodo 1 (js "A") false None None] None [].

(** A store with three tasks, as the seed request delivers them. *)
Definition three_tasks : Store :=
  mkStore [mkTodo 1 (js "A") false None None;
           mkTodo 2 (js "B") true None None;
           mkTodo 3 (js "C") false None None] None [].

(** A run that uses every operation: the seed arrives, a task is added,
    one is completed, edited and saved, one is deleted. *)
Definition busy_run : list event :=
  [Fetched (Parsed [mkTodo 1 (js "A") false None None;
                    mkTodo 2 (js "B") true None None]);
   AddClick (js "C") 1000 (js "t0");
   CompleteClick 1 (js "t1");
   ChangeClick 1;
   SaveClick 1 (js "A2") (js "t2");
   CompleteClick 1000 (js "t3");
   DeleteClick 2;
   Fetched (Rejected NetworkFailure);
   ChangeClick 1000;
   CancelClick].

(** ** Numbers in attributes *)

(** The digits of a decimal numeral as code units. *)
Fixpoint units_of_uint (d : Decimal.uint) : jsstring :=
  match d with
  | Decimal.Nil => []
  | Decimal.D0 d => 0x30%N :: units_of_uint d
  | Decimal.D1 d => 0x31%N :: units_of_uint d
  | Decimal.D2 d => 0x32%N :: units_of_uint d
  | Decimal.D3 d => 0x33%N :: units_of_uint d
  | Decimal.D4 d => 0x34%N :: units_of_uint d
  | Decimal.D5 d => 0x35%N :: units_of_uint d
  | Decimal.D6 d => 0x36%N :: units_of_uint d
  | Decimal.D7 d => 0x37%N :: units_of_uint d
  | Decimal.D8 d => 0x38%N :: units_of_uint d
  | Decimal.D9 d => 0x39%N :: units_of_uint d
  end.

(** [`${todo.id}`]: the string of an integer identifier.  For integers
    below [10^21] in magnitude this is the decimal numeral, with a minus
    sign for negative ones. *)
Definition NumberToString (z : Z) : jsstring :=
  match Z.to_int z with
  | Decimal.Pos d => units_of_uint d
  | Decimal.Neg d => 0x2D%N :: units_of_uint d
  end.

(** The decimal digit a code unit stands for. *)
Definition digit_of_unit (c : N) : option (Decimal.uint → Decimal.uint) :=
  if (c =? 0x30)%N then Some Decimal.D0
  else if (c =? 0x31)%N then Some Decimal.D1
  else if (c =? 0x32)%N then Some Decimal.D2
  else if (c =? 0x33)%N then Some Decimal.D3
  else if (c =? 0x34)%N then Some Decimal.D4
  else if (c =? 0x35)%N then Some Decimal.D5
  else if (c =? 0x36)%N then Some Decimal.D6
  else if (c =? 0x37)%N then Some Decimal.D7
  else if (c =? 0x38)%N then Some Decimal.D8
  else if (c =? 0x39)%N then Some Decimal.D9
  else None.

Fixpoint uint_of_units (s : jsstring) : option Decimal.uint :=
  match s with
  | [] => Some Decimal.Nil
  | c :: s' =>
      match digit_of_unit c, uint_of_units s' with
      | Some D, Some d => Some (D d)
      | _, _ => None
      end
  end.

(** The integers a JavaScript number holds exactly. *)
Definition safe_integer (z : Z) : Prop := (Z.abs z ≤ 2 ^ 53 - 1)%Z.

(** [Number(str)] on the strings that are, between white space, empty or
    a run of decimal digits with an optional sign, when the value is a
    safe integer.  [None] stands for every other result: [NaN], a
    fraction, an infinity, a value that is not a safe integer, and the
    literal forms not treated here (a decimal point, an exponent, the
    [0x], [0o], [0b] prefixes). *)
Definition StringToNumber (str : jsstring) : option Z :=
  match trim str with
  | [] => Some 0%Z
  | c :: r =>
      let '(negative, digits) :=
        if (c =? 0x2D)%N then (true, r)
        else if (c =? 0x2B)%N then (false, r)
        else (false, c :: r) in
      match digits, uint_of_units digits with
      | _ :: _, Some d =>
          let z := if negative : bool then Z.opp (Z.of_uint d)
                   else Z.of_uint d in
          if bool_decide (safe_integer z) then Some z else None
      | _, _ => None
      end
  end.

(** ** The view *)

(** A template text: the ASCII text [s] in which an apostrophe stands for
    a double quote. *)
Definition tpl (s : string) : jsstring :=
  (λ c : N, if (c =? 0x27)%N then 0x22%N else c) <$> js s.

(** The labels of the page, as code units. *)
Definition label_save : jsstring := [0x4FDD; 0x5B58]%N.
Definition label_cancel : jsstring := [0x53D6; 0x6D88]%N.
Definition label_delete : jsstring := [0x5220; 0x9664]%N.
Definition label_change : jsstring := [0x4FEE; 0x6539]%N.
Definition label_complete : jsstring := [0x5B8C; 0x6210]%N.
Definition label_completed : jsstring := [0x5DF2; 0x5B8C; 0x6210]%N.
Definition label_updated_at : jsstring := [0x66F4; 0x65B0; 0x4E8E]%N.
Definition label_completed_at : jsstring := [0x5B8C; 0x6210; 0x4E8E]%N.

(** A list item as [renderTodos] makes it: whether it carries the class
    [completed], and the markup assigned to its [innerHTML]. *)
Record Li := mkLi {
  classCompleted : bool;
  innerHTML : jsstring
}.

(** [todo.completed ? ... : ...] for the text of the complete button. *)
Definition completeBtnText (todo : Todo) : jsstring :=
  if completed todo then label_completed else label_complete.

(** [time ? `<span>label: ${time}</span>` : '']: an absent or empty
    timestamp gives no markup. *)
Definition timeHtml (label : jsstring) (time : option jsstring) : jsstring :=
  match time with
  | Some t =>
      if truthy t then tpl "<span>" ++ label ++ tpl ": " ++ t ++ tpl "</span>"
      else []
  | None => []
  end.

Definition modifiedTimeHtml (todo : Todo) : jsstring :=
  timeHtml label_updated_at (modifiedTime todo).

Definition completedTimeHtml (todo : Todo) : jsstring :=
  timeHtml label_completed_at (completedTime todo).

Definition footerHtml (todo : Todo) : jsstring :=
  tpl "
      <div class='todo-footer'>
        " ++ modifiedTimeHtml todo ++ tpl "
        " ++ completedTimeHtml todo ++ tpl "
      </div>
    ".

(** The markup up to the title, for a task that is being edited. *)
Definition editPrefix : jsstring :=
  tpl "
        <input type='text' class='edit-input' value='".

(** The markup of a task that is being edited. *)
Definition editHtml (todo : Todo) : jsstring :=
  editPrefix ++ title todo ++ tpl "'>
        <div class='btn-group'>
          <button class='save-btn' data-id='" ++ NumberToString (id todo)
  ++ tpl "'>" ++ label_save ++ tpl "</button>
          <button class='cancel-btn'>" ++ label_cancel ++ tpl "</button>
        </div>
        " ++ footerHtml todo ++ tpl "
      ".

(** The markup of a task that is not being edited. *)
Definition viewHtml (todo : Todo) : jsstring :=
  tpl "
        <span>" ++ title todo ++ tpl "</span>
        <div class='btn-group'>
          <button class='delete-btn' data-id='" ++ NumberToString (id todo)
  ++ tpl "'>" ++ label_delete ++ tpl "</button>
          <button class='change-btn' data-id='" ++ NumberToString (id todo)
  ++ tpl "'>" ++ label_change ++ tpl "</button>
          <button class='complete-btn' data-id='" ++ NumberToString (id todo)
  ++ tpl "'>" ++ completeBtnText todo ++ tpl "</button>
        </div>
        " ++ footerHtml todo.

(** [todo.id === editingId]. *)
Definition isEditing (marker : option Z) (todo : Todo) : bool :=
  bool_decide (marker = Some (id todo)).

(** The body of the [forEach] in [renderTodos]: the list item of one
    task. *)
Definition renderTodo (marker : option Z) (todo : Todo) : Li :=
  mkLi (completed todo)
       (if isEditing marker todo then editHtml todo else viewHtml todo).

(** [renderTodos]: the children of the list element after the call, one
    item per task, in the order of the tasks. *)
Definition renderTodos (s : Store) : list Li :=
  renderTodo (editingId s) <$> todos s.

(** [str.startsWith(p)]. *)
Fixpoint startsWith (p str : jsstring) : bool :=
  match p, str with
  | [], _ => true
  | _ :: _, [] => false
  | a :: p', b :: str' => (a =? b)%N && startsWith p' str'
  end.

(** The markup assigned to the list item begins with the edit input, as
    the edit template does and the view template does not.  This is a
    test on the beginning of the markup only: it tells which template made
    the item, not which elements the markup of a title adds to it. *)
Definition beginsWithEditInput (li : Li) : bool :=
  startsWith editPrefix (innerHTML li).

(** ** Presentations used in the proofs *)

(** Apply [f] to the first task with identifier [i]. *)
Fixpoint update_first (i : Z) (f : Todo → Todo) (l : list Todo)
    : list Todo :=
  match l with
  | [] => []
  | t :: l' =>
      if decide (id t = i) then f t :: l' else t :: update_first i f l'
  end.

(** What a completion does to the task it finds. *)
Definition completing (timeString : jsstring) (t : Todo) : Todo :=
  if completed t then t else done_at timeString t.

(** What a save with text [newText] does to the task it finds. *)
Definition saving (newText stamp : jsstring) (t : Todo) : Todo :=
  if truthy (trim newText) then edited newText stamp t else t.

(** ** Predicates on events *)

(** The event leaves the task [r] in the store as it is. *)
Definition spares (r : Todo) (e : event) : Prop :=
  match e with
  | Fetched (Parsed _) => False
  | DeleteClick i => i ≠ id r
  | SaveClick i newText _ => i ≠ id r ∨ blank newText
  | CompleteClick i _ => i ≠ id r ∨ completed r = true
  | _ => True
  end.

(** The event is not the arrival of a seed list. *)
Definition no_seed (e : event) : Prop :=
  match e with
  | Fetched (Parsed _) => False
  | _ => True
  end.

(** The identifiers that the adds of a run append, in order. *)
Definition added_ids (evs : list event) : list Z :=
  omap (λ e, match e with
             | AddClick text now _ =>
                 if truthy (trim text) then Some now else None
             | _ => None
             end) evs.



(** Two pages with the same tasks, or both without a list, and the same
    editing marker. *)
Definition same_page (p1 p2 : Page) : Prop :=
  match p1, p2 with
  | Listed s1, Listed s2 => same_tasks s1 s2
  | Unlisted m1 _, Unlisted m2 _ => m1 = m2
  | _, _ => False
  end.

(** The event is a completion of a task with the identifier of [r] at
    time [ts]. *)
Definition completed_by (r : Todo) (ts : jsstring) (e : event) : Prop :=
  match e with
  | CompleteClick i timeString => id r = i ∧ ts = timeString
  | _ => False
  end.

(** Every completion timestamp in [l] was written by a completion among
    the events [evs]. *)
Definition completion_provenance (evs : list event) (l : list Todo) : Prop :=
  ∀ (r : Todo) (ts : jsstring),
    r ∈ l → completedTime r = Some ts → Exists (completed_by r ts) evs.

(** The title of the task is not blank. *)
Definition titled (t : Todo) : Prop := ¬ blank (title t).

(** A task is completed exactly when it has a completion timestamp. *)
Definition stamped (t : Todo) : Prop :=
  completed t = true ↔ is_Some (completedTime t).

(** A run on [three_tasks] that never touches task 2: no seed arrives,
    no delete or save names it, and it is completed already. *)
Definition sparing_run : list event :=
  [AddClick (js "D") 1000 (js "t0");
   CompleteClick 2 (js "t1");
   ChangeClick 1;
   SaveClick 1 (js "A2") (js "t2");
   DeleteClick 3;
   Fetched (Rejected ParseFailure);
   ChangeClick 2;
   SaveClick 2 (js "  ") (js "t3");
   AddClick (js " ") 1001 (js "t4")].

(** A run from the initial state with no seed list: two adds, a
    completion, an edit and its save, a second completion. *)
Definition manual_run : list event :=
  [AddClick (js "A") 1000 (js "t0");
   AddClick (js "B") 1001 (js "t1");
   CompleteClick 1000 (js "t2");
   ChangeClick 1000;
   SaveClick 1000 (js "A2") (js "t3");
   CompleteClick 1001 (js "t4")].

(** ** Sanity checks on concrete inputs *)

Example trim_spaces : trim (js "  a b  ") = js "a b".
Proof. reflexivity. Qed.

Example trim_blank : truthy (trim (js "   ")) = false.
Proof. reflexivity. Qed.

Example add_then_complete :
  todos (run init [AddClick (js "A") 1 (js "t0"); CompleteClick 1 (js "t1")])
  = [mkTodo 1 (js "A") true (Some (js "t1")) (Some (js "t0"))].
Proof. reflexivity. Qed.

Section Trim.

Lemma trimStart_nil_iff (s : jsstring) :
  trimStart s = [] ↔ Forall (λ c, isTrimmed c = true) s.
Proof.
  induction s as [|c s IH]; simpl.
  - split; [constructor | done].
  - destruct (isTrimmed c) eqn:Hc.
    + rewrite IH. split; [by constructor | by inversion 1].
    + split; [done | inversion 1; congruence].
Qed.

Lemma trimStart_head (s : jsstring) (c : N) (r : jsstring) :
  trimStart s = c :: r → isTrimmed c = false.
Proof.
  induction s as [|d s IH]; simpl; [done|].
  destruct (isTrimmed d) eqn:Hd; [done | congruence].
Qed.

(** Blank texts are the texts made of white space and line terminators
    only. *)
Lemma blank_iff_whitespace (s : jsstring) :
  blank s ↔ Forall (λ c, isTrimmed c = true) s.
Proof.
  unfold blank, trim, trimEnd. split.
  - intros H. apply trimStart_nil_iff.
    destruct (trimStart s) as [|c r] eqn:Hs; [done|].
    apply trimStart_head in Hs.
    apply (f_equal reverse) in H. rewrite reverse_involutive in H.
    change (reverse []) with (@nil N) in H.
    apply trimStart_nil_iff in H. rewrite Forall_reverse in H.
    apply Forall_cons in H as [Hc _]. simpl in Hc. congruence.
  - intros H. apply trimStart_nil_iff in H. by rewrite H.
Qed.

Lemma truthy_trim_false (s : jsstring) : truthy (trim s) = false ↔ blank s.
Proof. unfold blank. destruct (trim s); naive_solver. Qed.

Lemma truthy_trim_true (s : jsstring) : truthy (trim s) = true ↔ ¬ blank s.
Proof. unfold blank. destruct (trim s); naive_solver. Qed.

End Trim.

(** ** Looking a task up by identifier *)

Section Find.

Implicit Types (i : Z) (l : list Todo) (t : Todo).

(** [find] returns the task in front of which no task has the
    identifier. *)
Lemma find_Some_split i l k t :
  find i l = Some (k, t) ↔
  ∃ l1 l2, l = l1 ++ t :: l2 ∧ length l1 = k
           ∧ Forall (λ u, id u ≠ i) l1 ∧ id t = i.
Proof.
  unfold find. rewrite list_find_Some. split.
  - intros (Hk & Hid & Hlt).
    exists (take k l), (drop (S k) l). split_and!; [| |  |done].
    + by rewrite take_drop_middle.
    + apply lookup_lt_Some in Hk. rewrite length_take. lia.
    + apply Forall_lookup. intros j u Hj.
      pose proof (lookup_lt_Some _ _ _ Hj) as Hlen.
      rewrite length_take in Hlen.
      rewrite lookup_take_lt in Hj by lia. apply (Hlt j u Hj). lia.
  - intros (l1 & l2 & -> & <- & Hall & Hid). split_and!; [|done|].
    + by rewrite list_lookup_middle.
    + intros j u Hj Hlt. rewrite lookup_app_l in Hj by done.
      by apply (Forall_lookup_1 _ _ _ _ Hall Hj).
Qed.

Lemma find_None i l : find i l = None ↔ Forall (λ u, id u ≠ i) l.
Proof. apply list_find_None. Qed.

Lemma find_elem_of i l r :
  r ∈ l → id r = i → ∃ k t, find i l = Some (k, t).
Proof.
  intros Hin Hid.
  destruct (list_find_elem_of (λ t, id t = i) l r Hin Hid) as [[k t] H].
  by exists k, t.
Qed.

Lemma insert_middle (l1 l2 : list Todo) t t' :
  <[length l1 := t']> (l1 ++ t :: l2) = l1 ++ t' :: l2.
Proof.
  replace (length l1) with (length l1 + 0) at 1 by lia.
  by rewrite insert_app_r.
Qed.

End Find.

(** ** Saving an edit *)

Section SaveEdit.

Variables (i : Z) (newText stamp : jsstring) (s : Store).

Lemma saveBtn_click_blank_eq :
  blank newText → saveBtn_click i newText stamp s = set_editingId None s.
Proof.
  intros Hb%truthy_trim_false. unfold saveBtn_click. rewrite Hb.
  by destruct (find i (todos s)) as [[k t]|].
Qed.

Lemma saveBtn_click_found (l1 l2 : list Todo) (t : Todo) :
  todos s = l1 ++ t :: l2 → Forall (λ u, id u ≠ i) l1 → id t = i →
  ¬ blank newText →
  saveBtn_click i newText stamp s
  = mkStore (l1 ++ edited newText stamp t :: l2) None (console s).
Proof.
  intros Hl Hall Hid Hnb%truthy_trim_true. unfold saveBtn_click.
  assert (find i (todos s) = Some (length l1, t)) as ->.
  { apply find_Some_split. by exists l1, l2. }
  rewrite Hnb, Hl. unfold set_todos, set_editingId; simpl.
  by rewrite insert_middle.
Qed.

Lemma saveBtn_click_missing :
  Forall (λ u, id u ≠ i) (todos s) →
  saveBtn_click i newText stamp s = set_editingId None s.
Proof.
  intros H%find_None. unfold saveBtn_click. by rewrite H.
Qed.

End SaveEdit.

(** C1 (as amended): saving a blank text leaves every record as it was,
    and the editing marker is cleared: the store afterwards is the one a
    cancel would leave. *)
Theorem saveEdit_blank_keeps_records_clears_marker
    (i : Z) (newText stamp : jsstring) (s : Store) (Hblank : blank newText) :
  todos (saveBtn_click i newText stamp s) = todos s
  ∧ editingId (saveBtn_click i newText stamp s) = None
  ∧ saveBtn_click i newText stamp s = cancelBtn_click s.
Proof.
  rewrite saveBtn_click_blank_eq by done. by split_and!.
Qed.

Lemma saveEdit_blank_keeps_records_clears_marker_witness :
  blank (js "  ")
  ∧ todos (saveBtn_click 1 (js "  ") (js "t") editing_A) = todos editing_A
  ∧ editingId (saveBtn_click 1 (js "  ") (js "t") editing_A) = None
  ∧ saveBtn_click 1 (js "  ") (js "t") editing_A = cancelBtn_click editing_A.
Proof.
  split; [reflexivity|].
  apply (saveEdit_blank_keeps_records_clears_marker 1 (js "  ") (js "t")
           editing_A).
  reflexivity.
Defined.

(** C1 (as stated) fails: with task 1 in edit mode, saving the blank text
    of two spaces clears the editing marker, so the save is not a no-op on
    the store. *)
Lemma saveEdit_blank_not_noop :
  blank (js "  ")
  ∧ editingId editing_A = Some 1%Z
  ∧ editingId (saveBtn_click 1 (js "  ") (js "t") editing_A) = None
  ∧ saveBtn_click 1 (js "  ") (js "t") editing_A ≠ editing_A.
Proof. split_and!; [reflexivity..|discriminate]. Qed.

(** C4: when the store holds a task with identifier [i] and the new text
    is not blank, the save replaces the first such task (the one [find]
    returns) by one with the new title, [completed = false], no completion
    timestamp and the modified timestamp set, leaves the tasks around it
    in place, and clears the editing marker. *)
Theorem saveEdit_nonblank_updates
    (i : Z) (newText stamp : jsstring) (s : Store) (r : Todo)
    (Hin : r ∈ todos s) (Hid : id r = i) (Hnb : ¬ blank newText) :
  ∃ (l1 l2 : list Todo) (t : Todo),
    todos s = l1 ++ t :: l2
    ∧ Forall (λ u, id u ≠ i) l1 ∧ id t = i
    ∧ todos (saveBtn_click i newText stamp s)
      = l1 ++ mkTodo i newText false None (Some stamp) :: l2
    ∧ editingId (saveBtn_click i newText stamp s) = None.
Proof.
  destruct (find_elem_of i (todos s) r Hin Hid) as (k & t & Hf).
  apply find_Some_split in Hf as (l1 & l2 & Hl & _ & Hall & Ht).
  exists l1, l2, t.
  rewrite (saveBtn_click_found i newText stamp s l1 l2 t) by done.
  unfold edited. rewrite Ht. by split_and!.
Qed.

Lemma saveEdit_nonblank_updates_witness :
  ∃ (l1 l2 : list Todo) (t : Todo),
    todos editing_done_A = l1 ++ t :: l2
    ∧ Forall (λ u, id u ≠ 1%Z) l1 ∧ id t = 1%Z
    ∧ todos (saveBtn_click 1 (js "B") (js "t2") editing_done_A)
      = l1 ++ mkTodo 1 (js "B") false None (Some (js "t2")) :: l2
    ∧ editingId (saveBtn_click 1 (js "B") (js "t2") editing_done_A) = None.
Proof.
  apply (saveEdit_nonblank_updates 1 (js "B") (js "t2") editing_done_A
           (mkTodo 1 (js "A") true (Some (js "t1")) None)).
  - simpl. apply list_elem_of_here.
  - reflexivity.
  - unfold blank. vm_compute. discriminate.
Defined.

(** ** Completing a task *)

Section Complete.

Variables (i : Z) (timeString : jsstring) (s : Store).

Lemma completeBtn_click_open (l1 l2 : list Todo) (t : Todo) :
  todos s = l1 ++ t :: l2 → Forall (λ u, id u ≠ i) l1 → id t = i →
  completed t = false →
  completeBtn_click i timeString s
  = set_todos (l1 ++ done_at timeString t :: l2) s.
Proof.
  intros Hl Hall Hid Hc. unfold completeBtn_click.
  assert (find i (todos s) = Some (length l1, t)) as ->.
  { apply find_Some_split. by exists l1, l2. }
  simpl. rewrite Hc, Hl. by rewrite insert_middle.
Qed.

Lemma completeBtn_click_done (l1 l2 : list Todo) (t : Todo) :
  todos s = l1 ++ t :: l2 → Forall (λ u, id u ≠ i) l1 → id t = i →
  completed t = true →
  completeBtn_click i timeString s = s.
Proof.
  intros Hl Hall Hid Hc. unfold completeBtn_click.
  assert (find i (todos s) = Some (length l1, t)) as ->.
  { apply find_Some_split. by exists l1, l2. }
  simpl. by rewrite Hc.
Qed.

Lemma completeBtn_click_missing :
  Forall (λ u, id u ≠ i) (todos s) → completeBtn_click i timeString s = s.
Proof.
  intros H%find_None. unfold completeBtn_click. by rewrite H.
Qed.

End Complete.

(** A second completion finds the task completed and returns at once. *)
Lemma completeBtn_click_twice (i : Z) (ts1 ts2 : jsstring) (s : Store) :
  completeBtn_click i ts2 (completeBtn_click i ts1 s)
  = completeBtn_click i ts1 s.
Proof.
  destruct (find i (todos s)) as [[k t]|] eqn:Hf.
  - apply find_Some_split in Hf as (l1 & l2 & Hl & _ & Hall & Ht).
    destruct (completed t) eqn:Hc.
    + by rewrite !(completeBtn_click_done i _ s l1 l2 t).
    + rewrite (completeBtn_click_open i ts1 s l1 l2 t) by done.
      by apply (completeBtn_click_done i ts2 _ l1 l2 (done_at ts1 t)).
  - apply find_None in Hf.
    rewrite (completeBtn_click_missing i ts1 s Hf).
    by apply completeBtn_click_missing.
Qed.

(** C5: when the store holds a task with identifier [i], completing [i]
    acts on the first such task: if it is not completed it becomes
    completed with the completion timestamp set and nothing else changes;
    if it is completed the store is unchanged; and a second completion
    changes nothing, whatever the time it is made at. *)
Theorem complete_idempotent
    (i : Z) (ts1 ts2 : jsstring) (s : Store) (r : Todo)
    (Hin : r ∈ todos s) (Hid : id r = i) :
  ∃ (l1 l2 : list Todo) (t : Todo),
    todos s = l1 ++ t :: l2
    ∧ Forall (λ u, id u ≠ i) l1 ∧ id t = i
    ∧ (completed t = false →
       completeBtn_click i ts1 s
       = mkStore (l1 ++ mkTodo i (title t) true (Some ts1) (modifiedTime t)
                     :: l2)
                 (editingId s) (console s))
    ∧ (completed t = true → completeBtn_click i ts1 s = s)
    ∧ completeBtn_click i ts2 (completeBtn_click i ts1 s)
      = completeBtn_click i ts1 s.
Proof.
  destruct (find_elem_of i (todos s) r Hin Hid) as (k & t & Hf).
  apply find_Some_split in Hf as (l1 & l2 & Hl & _ & Hall & Ht).
  exists l1, l2, t. split_and!; [done..| | |].
  - intros Hc. rewrite (completeBtn_click_open i ts1 s l1 l2 t) by done.
    unfold done_at. by rewrite Ht.
  - intros Hc. by apply (completeBtn_click_done i ts1 s l1 l2 t).
  - apply completeBtn_click_twice.
Qed.

Lemma complete_idempotent_witness :
  ∃ (l1 l2 : list Todo) (t : Todo),
    todos open_A = l1 ++ t :: l2
    ∧ Forall (λ u, id u ≠ 1%Z) l1 ∧ id t = 1%Z
    ∧ (completed t = false →
       completeBtn_click 1 (js "t1") open_A
       = mkStore (l1 ++ mkTodo 1 (title t) true (Some (js "t1"))
                             (modifiedTime t) :: l2)
                 (editingId open_A) (console open_A))
    ∧ (completed t = true → completeBtn_click 1 (js "t1") open_A = open_A)
    ∧ completeBtn_click 1 (js "t2") (completeBtn_click 1 (js "t1") open_A)
      = completeBtn_click 1 (js "t1") open_A.
Proof.
  apply (complete_idempotent 1 (js "t1") (js "t2") open_A
           (mkTodo 1 (js "A") false None None)).
  - simpl. apply list_elem_of_here.
  - reflexivity.
Defined.

(** ** What a save or a completion leaves alone *)

Section Frame.

Lemma frame_of_refl (i : Z) (l : list Todo) : frame_of i l l.
Proof. unfold frame_of. split_and!; [done..|]. by exists 0. Qed.

Lemma frame_of_insert (i : Z) (l : list Todo) (k : nat) (t t' : Todo) :
  find i l = Some (k, t) → id t' = id t → frame_of i l (<[k := t']> l).
Proof.
  intros (Hk & Hid & _)%list_find_Some Heq. unfold frame_of. split_and!.
  - apply length_insert.
  - rewrite list_fmap_insert. apply list_insert_id.
    rewrite list_lookup_fmap, Hk. simpl. by rewrite Heq.
  - intros j r Hj Hne. destruct (decide (j = k)) as [->|Hjk].
    + congruence.
    + by rewrite list_lookup_insert_ne.
  - exists k. intros j Hjk. by rewrite list_lookup_insert_ne.
Qed.

Lemma saveBtn_click_frame (i : Z) (newText stamp : jsstring) (s : Store) :
  frame_of i (todos s) (todos (saveBtn_click i newText stamp s)).
Proof.
  unfold saveBtn_click.
  destruct (find i (todos s)) as [[k t]|] eqn:Hf; simpl;
    [|apply frame_of_refl].
  destruct (truthy (trim newText)); simpl; [|apply frame_of_refl].
  by apply (frame_of_insert i (todos s) k t).
Qed.

Lemma completeBtn_click_frame (i : Z) (timeString : jsstring) (s : Store) :
  frame_of i (todos s) (todos (completeBtn_click i timeString s)).
Proof.
  unfold completeBtn_click.
  destruct (find i (todos s)) as [[k t]|] eqn:Hf; simpl;
    [|apply frame_of_refl].
  destruct (completed t); simpl; [apply frame_of_refl|].
  by apply (frame_of_insert i (todos s) k t).
Qed.

End Frame.

(** C10: a save and a completion for identifier [i] keep the length of the
    list and the identifier at every position, leave every task whose
    identifier is not [i] at its position with all its fields, and change
    at most one position. *)
Theorem save_and_complete_frame
    (i : Z) (newText stamp timeString : jsstring) (s : Store) :
  frame_of i (todos s) (todos (saveBtn_click i newText stamp s))
  ∧ frame_of i (todos s) (todos (completeBtn_click i timeString s)).
Proof.
  split; [apply saveBtn_click_frame | apply completeBtn_click_frame].
Qed.

(** ** Deleting a task *)

Section Delete.

Context (P : Todo → Prop) `{!∀ t, Decision (P t)}.

Lemma filter_all (l : list Todo) : Forall P l → filter P l = l.
Proof.
  induction 1 as [|t l Ht Hl IH]; [done|].
  by rewrite filter_cons_True, IH.
Qed.

(** [filter P l] is the largest sublist of [l] whose tasks satisfy [P]. *)
Lemma sublist_filter_greatest (l0 l : list Todo) :
  l0 `sublist_of` l → Forall P l0 → l0 `sublist_of` filter P l.
Proof.
  induction 1 as [|t l1 l2 Hsub IH|t l1 l2 Hsub IH]; intros Hall.
  - done.
  - apply Forall_cons in Hall as [Ht Hall].
    rewrite filter_cons_True by done. by apply sublist_skip, IH.
  - rewrite filter_cons. destruct (decide (P t)); [apply sublist_cons|];
      by apply IH.
Qed.

End Delete.

(** C6: a delete keeps exactly the tasks whose identifier differs from the
    one deleted, in their order: the new list is a sublist of the old one,
    it holds no task with that identifier, and every sublist of the old
    list without that identifier is a sublist of it.  The editing marker
    is untouched, and when no task has the identifier the store is
    unchanged. *)
Theorem delete_removes_exactly (idToDelete : Z) (s : Store) :
  (∀ r : Todo, r ∈ todos (deleteBtn_click idToDelete s)
               ↔ r ∈ todos s ∧ id r ≠ idToDelete)
  ∧ todos (deleteBtn_click idToDelete s) `sublist_of` todos s
  ∧ (∀ l : list Todo,
       l `sublist_of` todos s → Forall (λ r, id r ≠ idToDelete) l →
       l `sublist_of` todos (deleteBtn_click idToDelete s))
  ∧ editingId (deleteBtn_click idToDelete s) = editingId s
  ∧ (Forall (λ r, id r ≠ idToDelete) (todos s) →
     deleteBtn_click idToDelete s = s).
Proof.
  unfold deleteBtn_click; simpl. split_and!.
  - intros r. rewrite list_elem_of_filter. tauto.
  - apply sublist_filter.
  - intros l. apply sublist_filter_greatest.
  - done.
  - intros Hall. rewrite filter_all by done. by destruct s.
Qed.

Lemma delete_removes_exactly_witness :
  todos (deleteBtn_click 2 three_tasks)
  = [mkTodo 1 (js "A") false None None; mkTodo 3 (js "C") false None None]
  ∧ deleteBtn_click 7 three_tasks = three_tasks.
Proof.
  split; [reflexivity|].
  apply (delete_removes_exactly 7 three_tasks).
  simpl. repeat constructor; discriminate.
Defined.

(** ** Adding a task *)

(** C7: an add with a text that is not blank appends one record, with the
    text as title, [completed = false], no completion timestamp and the
    modified timestamp set, so the count grows by one; an add with a blank
    text leaves the store unchanged. *)
Theorem add_appends_or_ignores
    (text : jsstring) (now : Z) (stamp : jsstring) (s : Store) :
  (¬ blank text →
     todos (addBtn_click text now stamp s)
     = todos s ++ [mkTodo now text false None (Some stamp)]
     ∧ length (todos (addBtn_click text now stamp s)) = S (length (todos s))
     ∧ editingId (addBtn_click text now stamp s) = editingId s)
  ∧ (blank text → addBtn_click text now stamp s = s).
Proof.
  unfold addBtn_click. split.
  - intros Hnb%truthy_trim_true. rewrite Hnb; simpl. split_and!; [done| |done].
    rewrite length_app; simpl. lia.
  - intros Hb%truthy_trim_false. by rewrite Hb.
Qed.

Lemma add_appends_or_ignores_witness :
  (todos (addBtn_click (js "milk") 1000 (js "t0") init)
   = todos init ++ [mkTodo 1000 (js "milk") false None (Some (js "t0"))]
   ∧ length (todos (addBtn_click (js "milk") 1000 (js "t0") init))
     = S (length (todos init))
   ∧ editingId (addBtn_click (js "milk") 1000 (js "t0") init)
     = editingId init)
  ∧ addBtn_click (js "  ") 1000 (js "t0") init = init.
Proof.
  split.
  - apply (add_appends_or_ignores (js "milk") 1000 (js "t0") init).
    unfold blank. vm_compute. discriminate.
  - apply (add_appends_or_ignores (js "  ") 1000 (js "t0") init).
    reflexivity.
Defined.

(** ** Runs *)

Section Runs.

Lemma run_snoc (s : Store) (evs : list event) (e : event) :
  run s (evs ++ [e]) = step (run s evs) e.
Proof. unfold run. by rewrite foldl_app. Qed.

(** No handler reads the console: the tasks and the editing marker after
    an event depend on the tasks and the editing marker before it. *)
Lemma step_same_tasks (s1 s2 : Store) (e : event) :
  same_tasks s1 s2 → same_tasks (step s1 e) (step s2 e).
Proof.
  destruct s1 as [l1 e1 c1], s2 as [l2 e2 c2]. unfold same_tasks; simpl.
  intros [-> ->]. destruct e as [[err|data]| | | | | |]; simpl; try done.
  - unfold addBtn_click; simpl. by destruct (truthy (trim text)).
  - unfold saveBtn_click; simpl.
    destruct (find i l2) as [[k t]|]; [|done].
    by destruct (truthy (trim newText)).
  - unfold completeBtn_click; simpl.
    destruct (find i l2) as [[k t]|]; [|done].
    by destruct (completed t).
Qed.

Lemma run_same_tasks (evs : list event) (s1 s2 : Store) :
  same_tasks s1 s2 → same_tasks (run s1 evs) (run s2 evs).
Proof.
  revert s1 s2. induction evs as [|e evs IH]; intros s1 s2 H; [done|].
  simpl. by apply IH, step_same_tasks.
Qed.

End Runs.

(** ** The start-up fetch *)

Section PageLayer.

(** On a page with a list, an event of the list layer does what [step]
    says, and its handler runs to the end. *)
Lemma page_step_lift (s : Store) (e : event) :
  page_step (Listed s) (lift e) = (Listed (step s e), Returns).
Proof. by destruct e as [[err|data]| | | | | |]. Qed.

Lemma page_run_cons (p : Page) (e : PageEvent) (evs : list PageEvent) :
  page_run p (e :: evs) = page_run (fst (page_step p e)) evs.
Proof. done. Qed.

Lemma page_run_lift (evs : list event) (s : Store) :
  page_run (Listed s) (lift <$> evs) = Listed (run s evs).
Proof.
  revert s. induction evs as [|e evs IH]; intros s; [done|].
  rewrite fmap_cons, page_run_cons, page_step_lift. apply IH.
Qed.

(** No handler reads the console. *)
Lemma page_step_same (p1 p2 : Page) (e : PageEvent) :
  same_page p1 p2 →
  same_page (fst (page_step p1 e)) (fst (page_step p2 e))
  ∧ snd (page_step p1 e) = snd (page_step p2 e).
Proof.
  destruct p1 as [s1|m1 lg1], p2 as [s2|m2 lg2]; simpl; try done.
  - intros Hs. pose proof Hs as [Hl Hm].
    destruct e as [[[err|data]|]|text now stamp|i|i|i field stamp| |i ts];
      simpl; try done.
    + split; [|reflexivity].
      apply (step_same_tasks s1 s2 (AddClick text now stamp) Hs).
    + split; [|reflexivity].
      apply (step_same_tasks s1 s2 (DeleteClick i) Hs).
    + destruct field as [| |v]; simpl; [done| |].
      * rewrite Hl. by destruct (find i (todos s2)).
      * split; [|reflexivity].
        apply (step_same_tasks s1 s2 (SaveClick i v stamp) Hs).
    + split; [|reflexivity].
      apply (step_same_tasks s1 s2 (CompleteClick i ts) Hs).
  - intros ->.
    destruct e as [[[err|data]|]|text now stamp|i|i|i field stamp| |i ts];
      simpl; try done.
    + by destruct (truthy (trim text)).
    + by destruct field.
Qed.

Lemma page_run_same (evs : list PageEvent) (p1 p2 : Page) :
  same_page p1 p2 →
  same_page (page_run p1 evs) (page_run p2 evs)
  ∧ page_trace p1 evs = page_trace p2 evs.
Proof.
  revert p1 p2. induction evs as [|e evs IH]; intros p1 p2 Hp; [done|].
  destruct (page_step_same p1 p2 e Hp) as [Hp' Hc].
  destruct (IH _ _ Hp') as [Hr Ht]. rewrite !page_run_cons. split; [done|].
  simpl. by rewrite Hc, Ht.
Qed.

Lemma page_error_same (e : Logged) (p : Page) : same_page (page_error e p) p.
Proof. by destruct p. Qed.

End PageLayer.

(** C9 (as amended): when [fetch] or [response.json()] rejects, the
    failure is written to the console and the tasks and the editing marker
    stay as they were (empty, from the initial state); every later run of
    events gives the tasks and the marker it would have given without the
    failure, with every handler ending as it would have, so an add still
    appends its task.  When the body parses to a list, the list replaces
    the tasks whatever [todos] held. *)
Theorem fetch_failure_keeps_store
    (e : FetchError) (data : list Todo) (s : Store) (p : Page)
    (evs : list PageEvent) (text : jsstring) (now : Z) (stamp : jsstring) :
  fetchTodos (Outcome (Rejected e)) (Listed s)
  = Listed (mkStore (todos s) (editingId s) (console s ++ [FetchFailed e]))
  ∧ fetchTodos (Outcome (Rejected e)) (Listed init)
    = Listed (mkStore [] None [FetchFailed e])
  ∧ same_page (page_run (fetchTodos (Outcome (Rejected e)) p) evs)
              (page_run p evs)
  ∧ page_trace (fetchTodos (Outcome (Rejected e)) p) evs = page_trace p evs
  ∧ (¬ blank text →
     addBtn_handler text now stamp
       (fetchTodos (Outcome (Rejected e)) (Listed init))
     = (Listed (mkStore [mkTodo now text false None (Some stamp)] None
                        [FetchFailed e]),
        Returns))
  ∧ fetchTodos (Outcome (Parsed data)) p
    = Listed (mkStore data (page_marker p) (page_log p)).
Proof.
  split_and!; try done.
  - apply page_run_same, page_error_same.
  - apply page_run_same, page_error_same.
  - intros Hnb%truthy_trim_true. simpl. unfold addBtn_click. by rewrite Hnb.
Qed.

Lemma fetch_failure_keeps_store_witness :
  addBtn_handler (js "milk") 1000 (js "t0")
    (fetchTodos (Outcome (Rejected NetworkFailure)) (Listed init))
  = (Listed (mkStore [mkTodo 1000 (js "milk") false None (Some (js "t0"))]
                     None [FetchFailed NetworkFailure]),
     Returns).
Proof.
  apply (fetch_failure_keeps_store NetworkFailure [] init (Listed init) []
           (js "milk") 1000 (js "t0")).
  unfold blank. vm_compute. discriminate.
Defined.

(** C9 (as stated) fails: a body that parses to a value that is not a
    list is a failure that is caught and logged, but the value has
    replaced the tasks by then, whether there were none or three, and a
    later add throws instead of appending. *)
Lemma non_list_body_overwrites_store :
  fetchTodos ParsedNonList (Listed init) = Unlisted None [RenderFailed]
  ∧ fetchTodos ParsedNonList (Listed three_tasks)
    = Unlisted None [RenderFailed]
  ∧ addBtn_handler (js "milk") 1000 (js "t0")
      (fetchTodos ParsedNonList (Listed init))
    = (Unlisted None [RenderFailed], Throws).
Proof. split_and!; reflexivity. Qed.

(** ** Completion timestamps *)

Section CompletionInvariant.

Lemma completion_ok_step (s : Store) (e : event) :
  seed_satisfies completion_ok e →
  Forall completion_ok (todos s) → Forall completion_ok (todos (step s e)).
Proof.
  intros Hseed Hinv. destruct e as [[err|data]| | | | | |]; simpl in *;
    try done.
  - unfold addBtn_click. destruct (truthy (trim text)); simpl; [|done].
    apply Forall_app. split; [done|]. apply Forall_singleton.
    intros [x Hx]. discriminate.
  - apply Forall_forall. intros r [_ Hr]%list_elem_of_filter.
    by apply (proj1 (Forall_forall _ _) Hinv).
  - unfold saveBtn_click. destruct (find i (todos s)) as [[k t]|]; [|done].
    destruct (truthy (trim newText)); simpl; [|done].
    apply Forall_insert; [done|]. intros [x Hx]. discriminate.
  - unfold completeBtn_click.
    destruct (find i (todos s)) as [[k t]|]; simpl; [|done].
    destruct (completed t); simpl; [done|].
    by apply Forall_insert.
Qed.

Lemma completion_ok_run (evs : list event) (s : Store) :
  Forall (seed_satisfies completion_ok) evs →
  Forall completion_ok (todos s) → Forall completion_ok (todos (run s evs)).
Proof.
  revert s. induction evs as [|e evs IH]; intros s Hseed Hinv; [done|].
  apply Forall_cons in Hseed as [He Hseed]. simpl.
  by apply IH, completion_ok_step.
Qed.

End CompletionInvariant.

(** C8 (as amended): if every seed list that arrives has completion
    timestamps on completed tasks only (the lists of the seed endpoint
    carry none), then the same holds of the store after every run of
    fetches, adds, deletes, saves, completions, edit starts and cancels,
    from a store where it holds and so from the initial store. *)
Theorem completion_invariant
    (s : Store) (evs : list event)
    (Hinv : Forall completion_ok (todos s))
    (Hseed : Forall (seed_satisfies completion_ok) evs) :
  Forall completion_ok (todos (run s evs))
  ∧ Forall completion_ok (todos (run init evs)).
Proof.
  split; by apply completion_ok_run.
Qed.

Lemma completion_invariant_witness :
  Forall completion_ok (todos (run three_tasks busy_run))
  ∧ Forall completion_ok (todos (run init busy_run)).
Proof.
  apply (completion_invariant three_tasks busy_run).
  - repeat constructor; intros [x Hx]; discriminate.
  - repeat constructor; intros [x Hx]; discriminate.
Defined.

(** C8 (as stated) fails: [fetchTodos] installs the parsed list
    unchecked, so a seed list with a completion timestamp on a task that
    is not completed gives a reachable store with such a task. *)
Lemma seed_breaks_completion_invariant :
  todos (run init [Fetched (Parsed [mkTodo 1 (js "A") false
                                      (Some (js "t")) None])])
  = [mkTodo 1 (js "A") false (Some (js "t")) None]
  ∧ completedTime (mkTodo 1 (js "A") false (Some (js "t")) None)
    = Some (js "t")
  ∧ completed (mkTodo 1 (js "A") false (Some (js "t")) None) = false
  ∧ ¬ Forall completion_ok
        (todos (run init [Fetched (Parsed [mkTodo 1 (js "A") false
                                             (Some (js "t")) None])])).
Proof.
  split_and!; [reflexivity..|].
  intros [H _]%Forall_cons. discriminate H. by eexists.
Qed.

(** ** Modified timestamps *)

Section ModifiedTime.

Lemma created_by_ext (r r' : Todo) (m : jsstring) (e : event) :
  id r = id r' → title r = title r' → created_by r m e → created_by r' m e.
Proof. intros Hi Ht. destruct e; simpl; try done. by rewrite Hi, Ht. Qed.

Lemma edited_by_ext (r r' : Todo) (m : jsstring) (e : event) :
  id r = id r' → title r = title r' → edited_by r m e → edited_by r' m e.
Proof. intros Hi Ht. destruct e; simpl; try done. by rewrite Hi, Ht. Qed.

Lemma provenance_snoc (evs : list event) (e : event) (l : list Todo) :
  provenance evs l → provenance (evs ++ [e]) l.
Proof.
  intros Hp r m Hin Hm. rewrite !Exists_app.
  destruct (Hp r m Hin Hm); auto.
Qed.

Lemma provenance_sub (evs : list event) (l l' : list Todo) :
  (∀ r, r ∈ l' → r ∈ l) → provenance evs l → provenance evs l'.
Proof. intros Hsub Hp r m Hin. by apply Hp, Hsub. Qed.

(** Replacing a task by one that an event [e] wrote, or by one with the
    same identifier, title and modified timestamp. *)
Lemma provenance_replace (evs : list event) (e : event)
    (l1 l2 : list Todo) (t t' : Todo) :
  provenance evs (l1 ++ t :: l2) →
  (∀ m, modifiedTime t' = Some m →
        created_by t' m e ∨ edited_by t' m e
        ∨ (id t' = id t ∧ title t' = title t ∧ modifiedTime t = Some m)) →
  provenance (evs ++ [e]) (l1 ++ t' :: l2).
Proof.
  intros Hp Hnew r m Hin Hm.
  apply elem_of_app in Hin as [Hin|Hin%elem_of_cons].
  - apply (provenance_snoc evs e _ Hp r m); [|done].
    apply elem_of_app. by left.
  - destruct Hin as [->|Hin].
    + rewrite !Exists_app, !Exists_cons.
      destruct (Hnew m Hm) as [H|[H|(Hi & Ht & Hmt)]]; [by auto..|].
      assert (t ∈ l1 ++ t :: l2) as Htin.
      { apply elem_of_app. right. apply list_elem_of_here. }
      destruct (Hp t m Htin Hmt) as [H|H]; [left; left|right; left].
      * eapply Exists_impl; [done|]. intros e'. by apply created_by_ext.
      * eapply Exists_impl; [done|]. intros e'. by apply edited_by_ext.
    + apply (provenance_snoc evs e _ Hp r m); [|done].
      apply elem_of_app. right. by apply list_elem_of_further.
Qed.

Lemma provenance_step (evs : list event) (s : Store) (e : event) :
  seed_satisfies (λ t, modifiedTime t = None) e →
  provenance evs (todos s) → provenance (evs ++ [e]) (todos (step s e)).
Proof.
  intros Hseed Hp.
  destruct e as [[err|data]|text now stamp|i|i|i newText stamp| |i ts];
    simpl in *; try by apply provenance_snoc.
  - intros r m Hin Hm.
    pose proof (proj1 (Forall_forall _ _) Hseed r Hin) as Hn.
    simpl in Hn. congruence.
  - unfold addBtn_click. destruct (truthy (trim text)) eqn:Hnb; simpl;
      [|by apply provenance_snoc].
    apply truthy_trim_true in Hnb. intros r m Hin Hm.
    apply elem_of_app in Hin as [Hin|Hin%list_elem_of_singleton].
    + by apply (provenance_snoc evs _ _ Hp r m).
    + subst r. simpl in Hm. injection Hm as <-. left.
      apply Exists_app. right. by apply Exists_cons_hd.
  - apply provenance_snoc. eapply provenance_sub; [|done].
    by intros r [_ Hr]%list_elem_of_filter.
  - unfold saveBtn_click.
    destruct (find i (todos s)) as [[k t]|] eqn:Hf; simpl;
      [|by apply provenance_snoc].
    destruct (truthy (trim newText)) eqn:Hnb; simpl;
      [|by apply provenance_snoc].
    apply truthy_trim_true in Hnb.
    apply find_Some_split in Hf as (l1 & l2 & Hl & <- & _ & Ht).
    rewrite Hl in *. rewrite insert_middle.
    apply (provenance_replace evs _ l1 l2 t); [done|].
    intros m Hm. simpl in Hm. injection Hm as <-. right; left. by simpl.
  - unfold completeBtn_click.
    destruct (find i (todos s)) as [[k t]|] eqn:Hf; simpl;
      [|by apply provenance_snoc].
    destruct (completed t); simpl; [by apply provenance_snoc|].
    apply find_Some_split in Hf as (l1 & l2 & Hl & <- & _ & Ht).
    rewrite Hl in *. rewrite insert_middle.
    apply (provenance_replace evs _ l1 l2 t); [done|].
    intros m Hm. simpl in Hm. by right; right.
Qed.

Lemma provenance_run (evs : list event) :
  Forall (seed_satisfies (λ t, modifiedTime t = None)) evs →
  provenance evs (todos (run init evs)).
Proof.
  induction evs as [|e evs IH] using rev_ind; intros Hseed.
  - intros r m Hin. by apply elem_of_nil in Hin.
  - apply Forall_app in Hseed as [Hseed He].
    rewrite Forall_singleton in He.
    rewrite run_snoc. apply provenance_step; [done|]. by apply IH.
Qed.

End ModifiedTime.

(** C2 (as amended): in a run from the initial state in which the seed
    lists carry no modified timestamp, a task has a modified timestamp
    only if an add created a task with its identifier and title at that
    time, or a save wrote its title into a task with its identifier at
    that time; and the task that an add appends has its modified timestamp
    set. *)
Theorem modified_time_written_by_add_or_save
    (evs : list event) (r : Todo) (m : jsstring)
    (Hseed : Forall (seed_satisfies (λ t, modifiedTime t = None)) evs)
    (Hin : r ∈ todos (run init evs))
    (Hm : modifiedTime r = Some m) :
  (Exists (created_by r m) evs ∨ Exists (edited_by r m) evs)
  ∧ (∀ (text : jsstring) (now : Z) (stamp : jsstring) (s : Store),
       ¬ blank text →
       ∃ t : Todo, last (todos (addBtn_click text now stamp s)) = Some t
                   ∧ modifiedTime t = Some stamp).
Proof.
  split.
  - by apply (provenance_run evs Hseed r m).
  - intros text now stamp s Hnb%truthy_trim_true.
    unfold addBtn_click. rewrite Hnb; simpl.
    exists (mkTodo now text false None (Some stamp)). by rewrite last_snoc.
Qed.

Lemma modified_time_written_by_add_or_save_witness :
  (Exists (created_by (mkTodo 1000 (js "C") true (Some (js "t3"))
                         (Some (js "t0"))) (js "t0")) busy_run
   ∨ Exists (edited_by (mkTodo 1000 (js "C") true (Some (js "t3"))
                          (Some (js "t0"))) (js "t0")) busy_run)
  ∧ (∀ (text : jsstring) (now : Z) (stamp : jsstring) (s : Store),
       ¬ blank text →
       ∃ t : Todo, last (todos (addBtn_click text now stamp s)) = Some t
                   ∧ modifiedTime t = Some stamp).
Proof.
  apply (modified_time_written_by_add_or_save busy_run
           (mkTodo 1000 (js "C") true (Some (js "t3")) (Some (js "t0")))
           (js "t0")).
  - repeat constructor.
  - vm_compute. apply list_elem_of_further, list_elem_of_here.
  - reflexivity.
Defined.

(** C2 (as stated) fails: after a single add and no save at all, the task
    in the store has a modified timestamp. *)
Lemma fresh_task_has_modified_time :
  todos (run init [AddClick (js "A") 1000 (js "t0")])
  = [mkTodo 1000 (js "A") false None (Some (js "t0"))]
  ∧ existsb is_save [AddClick (js "A") 1000 (js "t0")] = false
  ∧ modifiedTime (mkTodo 1000 (js "A") false None (Some (js "t0"))) ≠ None.
Proof. split_and!; [reflexivity..|discriminate]. Qed.

(** ** Identifiers *)

Section Identifiers.

Lemma ids_frame (i : Z) (l l' : list Todo) : frame_of i l l' → ids l' = ids l.
Proof. by intros (_ & H & _). Qed.

Lemma ids_unique_step (s : Store) (e : event) :
  fresh_id s e → NoDup (ids (todos s)) → NoDup (ids (todos (step s e))).
Proof.
  intros Hfresh Hnd.
  destruct e as [[err|data]|text now stamp|i|i|i newText stamp| |i ts];
    unfold step; try done.
  - unfold addBtn_click. destruct (truthy (trim text)); simpl; [|done].
    unfold ids in *. rewrite fmap_app. apply NoDup_app. split_and!.
    + done.
    + intros x Hx ->%list_elem_of_singleton. done.
    + apply NoDup_singleton.
  - eapply sublist_NoDup; [done|].
    unfold ids. apply fmap_sublist, sublist_filter.
  - by rewrite (ids_frame i _ _ (saveBtn_click_frame i newText stamp s)).
  - by rewrite (ids_frame i _ _ (completeBtn_click_frame i ts s)).
Qed.

(** Identifiers stay pairwise distinct as long as every add reads a
    clock value that no task in the store carries. *)
Lemma ids_unique_run (evs : list event) (s : Store) :
  fresh_run s evs → NoDup (ids (todos s)) → NoDup (ids (todos (run s evs))).
Proof.
  revert s. induction evs as [|e evs IH]; intros s Hfresh Hnd; [done|].
  destruct Hfresh as [He Hfresh]. simpl.
  by apply IH, ids_unique_step.
Qed.

End Identifiers.

(** C3 fails on the code: two adds that read the same [Date.now()] make
    two tasks with the same identifier. *)
Theorem add_same_millisecond_duplicates_id :
  ids (todos (run init [AddClick (js "A") 1000 (js "t0");
                        AddClick (js "B") 1000 (js "t0")]))
  = [1000%Z; 1000%Z]
  ∧ ¬ NoDup (ids (todos (run init [AddClick (js "A") 1000 (js "t0");
                                   AddClick (js "B") 1000 (js "t0")]))).
Proof.
  split; [reflexivity|].
  intros H. apply NoDup_cons in H as [H _]. apply H, list_elem_of_here.
Qed.

(** ** Updates of the first task with an identifier *)

Section UpdateFirst.

Implicit Types (i j : Z) (f g : Todo → Todo) (l : list Todo).

Lemma update_first_find i f l :
  update_first i f l
  = match find i l with
    | Some (k, t) => <[k := f t]> l
    | None => l
    end.
Proof.
  unfold find. induction l as [|t l IH]; [done|]. simpl.
  destruct (decide (id t = i)) as [Hi|Hi]; [done|].
  rewrite IH. by destruct (list_find _ l) as [[k u]|].
Qed.

Lemma update_first_ext i f g l :
  (∀ t, id t = i → f t = g t) → update_first i f l = update_first i g l.
Proof.
  intros Hfg. induction l as [|t l IH]; [done|]. simpl.
  destruct (decide (id t = i)); [by rewrite Hfg | by rewrite IH].
Qed.

Lemma update_first_id i l : update_first i (λ t, t) l = l.
Proof.
  induction l as [|t l IH]; [done|]. simpl.
  destruct (decide (id t = i)); [done | by rewrite IH].
Qed.

Lemma update_first_twice i f g l :
  (∀ t, id (g t) = id t) →
  update_first i f (update_first i g l) = update_first i (f ∘ g) l.
Proof.
  intros Hg. induction l as [|t l IH]; [done|]. simpl.
  destruct (decide (id t = i)) as [Hi|Hi]; simpl.
  - by rewrite Hg, decide_True.
  - by rewrite decide_False, IH.
Qed.

Lemma update_first_comm i j f g l :
  i ≠ j → (∀ t, id (f t) = id t) → (∀ t, id (g t) = id t) →
  update_first i f (update_first j g l)
  = update_first j g (update_first i f l).
Proof.
  intros Hij Hf Hg. induction l as [|t l IH]; [done|]. simpl.
  destruct (decide (id t = j)) as [Hj|Hj], (decide (id t = i)) as [Hi|Hi];
    simpl.
  - congruence.
  - rewrite Hg. by rewrite decide_False, decide_True.
  - rewrite Hf. by rewrite decide_True, decide_False.
  - by rewrite decide_False, decide_False, IH.
Qed.

Lemma update_first_filter_ne i j f l :
  i ≠ j → (∀ t, id (f t) = id t) →
  filter (λ t, id t ≠ j) (update_first i f l)
  = update_first i f (filter (λ t, id t ≠ j) l).
Proof.
  intros Hij Hf. induction l as [|t l IH]; [done|]. simpl.
  destruct (decide (id t = i)) as [Hi|Hi].
  - rewrite !filter_cons_True by (rewrite ?Hf; congruence).
    simpl. by rewrite decide_True.
  - rewrite !filter_cons. destruct (decide (id t ≠ j)); simpl.
    + by rewrite decide_False, IH.
    + done.
Qed.

Lemma update_first_filter_eq i f l :
  (∀ t, id (f t) = id t) →
  filter (λ t, id t ≠ i) (update_first i f l) = filter (λ t, id t ≠ i) l.
Proof.
  intros Hf. induction l as [|t l IH]; [done|]. simpl.
  destruct (decide (id t = i)) as [Hi|Hi].
  - rewrite !filter_cons_False; [done| |]; rewrite ?Hf; by intros [].
  - by rewrite !filter_cons_True, IH.
Qed.

Lemma update_first_elem_of i f l (r : Todo) :
  r ∈ l → id r ≠ i ∨ f r = r → r ∈ update_first i f l.
Proof.
  intros Hin Hr. induction l as [|t l IH]; [done|]. simpl.
  apply elem_of_cons in Hin as [->|Hin].
  - destruct (decide (id t = i)) as [Hi|Hi]; [|apply list_elem_of_here].
    destruct Hr as [Hr|Hr]; [done|]. rewrite Hr. apply list_elem_of_here.
  - destruct (decide (id t = i)); apply list_elem_of_further; auto.
Qed.

Lemma update_first_ids i f l :
  (∀ t, id (f t) = id t) → ids (update_first i f l) = ids l.
Proof.
  intros Hf. unfold ids. induction l as [|t l IH]; [done|]. simpl.
  destruct (decide (id t = i)); rewrite !fmap_cons; [by rewrite Hf|].
  by rewrite IH.
Qed.

Lemma update_first_Forall (P : Todo → Prop) i f l :
  (∀ t, id t = i → P t → P (f t)) → Forall P l → Forall P (update_first i f l).
Proof.
  intros Hf. induction 1 as [|t l Ht Hl IH]; [done|]. simpl.
  destruct (decide (id t = i)); constructor; auto.
Qed.

Lemma update_first_app_l i f l (l' : list Todo) (r : Todo) :
  r ∈ l → id r = i → update_first i f (l ++ l') = update_first i f l ++ l'.
Proof.
  intros Hin Hr. induction l as [|t l IH]; [by apply elem_of_nil in Hin|].
  simpl. destruct (decide (id t = i)); [done|].
  apply elem_of_cons in Hin as [->|Hin]; [done|]. by rewrite IH.
Qed.

Lemma completing_id ts (t : Todo) : id (completing ts t) = id t.
Proof. unfold completing. by destruct (completed t). Qed.

Lemma edited_id x st (t : Todo) : id (edited x st t) = id t.
Proof. done. Qed.

(** The handlers as updates of the first task with the identifier. *)
Lemma completeBtn_click_update i ts (s : Store) :
  completeBtn_click i ts s
  = set_todos (update_first i (completing ts) (todos s)) s.
Proof.
  rewrite update_first_find. unfold completeBtn_click, completing.
  destruct (find i (todos s)) as [[k t]|] eqn:Hf; [|by destruct s].
  destruct (completed t); [|done].
  apply list_find_Some in Hf as (Hk & _).
  rewrite list_insert_id by done. by destruct s.
Qed.

Lemma saveBtn_click_update i x st (s : Store) :
  ¬ blank x →
  saveBtn_click i x st s
  = mkStore (update_first i (edited x st) (todos s)) None (console s).
Proof.
  intros Hnb%truthy_trim_true. rewrite update_first_find.
  unfold saveBtn_click. rewrite Hnb.
  by destruct (find i (todos s)) as [[k t]|].
Qed.

End UpdateFirst.

(** ** More on adding and deleting *)

(** X1: the add handler returns the store unchanged exactly for the texts
    that consist of white space and line terminators only (the empty text
    among them). *)
Theorem add_ignored_iff_whitespace
    (text : jsstring) (now : Z) (stamp : jsstring) (s : Store) :
  addBtn_click text now stamp s = s
  ↔ Forall (λ c, isTrimmed c = true) text.
Proof.
  rewrite <- blank_iff_whitespace. unfold addBtn_click. split.
  - intros Heq. apply truthy_trim_false.
    destruct (truthy (trim text)); [|done]. simpl in Heq.
    apply (f_equal (λ s', length (todos s'))) in Heq. simpl in Heq.
    rewrite length_app in Heq. simpl in Heq. lia.
  - intros Hb%truthy_trim_false. by rewrite Hb.
Qed.

Section DeleteCompose.

Lemma filter_filter_same (P : Todo → Prop) `{!∀ t, Decision (P t)}
    (l : list Todo) :
  filter P (filter P l) = filter P l.
Proof.
  apply filter_all, Forall_forall. by intros r [Hr _]%list_elem_of_filter.
Qed.

Lemma find_deleted (i : Z) (l : list Todo) :
  find i (filter (λ t, id t ≠ i) l) = None.
Proof.
  apply find_None, Forall_forall. by intros r [Hr _]%list_elem_of_filter.
Qed.

End DeleteCompose.

(** X4: deleting the same identifier twice is deleting it once, and two
    deletes give the same store in either order. *)
Theorem delete_idempotent_commutes (i j : Z) (s : Store) :
  deleteBtn_click i (deleteBtn_click i s) = deleteBtn_click i s
  ∧ deleteBtn_click i (deleteBtn_click j s)
    = deleteBtn_click j (deleteBtn_click i s).
Proof.
  unfold deleteBtn_click, set_todos; simpl. split; f_equal.
  - apply filter_filter_same.
  - rewrite !list_filter_filter. apply list_filter_iff. tauto.
Qed.

(** X5: an add with a text that is not blank, followed by a delete of the
    identifier it assigned, gives back the store, provided no task in the
    store had that identifier. *)
Theorem add_then_delete_restores
    (text : jsstring) (now : Z) (stamp : jsstring) (s : Store)
    (Hnb : ¬ blank text) (Hfresh : now ∉ ids (todos s)) :
  deleteBtn_click now (addBtn_click text now stamp s) = s.
Proof.
  apply truthy_trim_true in Hnb.
  unfold addBtn_click, deleteBtn_click. rewrite Hnb; simpl.
  rewrite filter_app, filter_cons_False, filter_nil, app_nil_r
    by (simpl; by intros []).
  rewrite filter_all; [by destruct s|].
  apply Forall_forall. intros r Hr Heq. apply Hfresh.
  unfold ids. rewrite <- Heq. by apply list_elem_of_fmap_2.
Qed.

Lemma add_then_delete_restores_witness :
  deleteBtn_click 1000 (addBtn_click (js "milk") 1000 (js "t0") three_tasks)
  = three_tasks.
Proof.
  apply (add_then_delete_restores (js "milk") 1000 (js "t0") three_tasks).
  - unfold blank. vm_compute. discriminate.
  - vm_compute. intros H. repeat (apply elem_of_cons in H as [H|H];
      [discriminate|]). by apply elem_of_nil in H.
Defined.

(** X6: after a delete of an identifier no task carries it, so a save
    for it changes no task and a completion for it changes nothing. *)
Theorem delete_leaves_nothing_to_edit
    (i : Z) (newText stamp timeString : jsstring) (s : Store) :
  find i (todos (deleteBtn_click i s)) = None
  ∧ todos (saveBtn_click i newText stamp (deleteBtn_click i s))
    = todos (deleteBtn_click i s)
  ∧ completeBtn_click i timeString (deleteBtn_click i s)
    = deleteBtn_click i s.
Proof.
  pose proof (find_deleted i (todos s)) as Hf.
  split_and!; [done| |].
  - rewrite saveBtn_click_missing; [done|]. by apply find_None.
  - apply completeBtn_click_missing. by apply find_None.
Qed.

(** ** What runs keep *)

Section RunsKeep.

Lemma run_cons (s : Store) (e : event) (evs : list event) :
  run s (e :: evs) = run (step s e) evs.
Proof. done. Qed.

Lemma spares_step (r : Todo) (s : Store) (e : event) :
  r ∈ todos s → spares r e → r ∈ todos (step s e).
Proof.
  intros Hin Hsp.
  destruct e as [[err|data]|text now stamp|i|i|i newText stamp| |i ts];
    simpl in Hsp; unfold step; try done.
  - unfold addBtn_click. destruct (truthy (trim text)); simpl; [|done].
    apply elem_of_app. by left.
  - apply list_elem_of_filter. split; [congruence|done].
  - destruct (truthy (trim newText)) eqn:Hnb.
    + apply truthy_trim_true in Hnb. rewrite saveBtn_click_update by done.
      simpl. apply update_first_elem_of; [done|].
      destruct Hsp as [Hi|Hb]; [left; congruence | done].
    + apply truthy_trim_false in Hnb. by rewrite saveBtn_click_blank_eq.
  - rewrite completeBtn_click_update. simpl.
    apply update_first_elem_of; [done|].
    destruct Hsp as [Hi|Hc]; [left; congruence|right].
    unfold completing. by rewrite Hc.
Qed.

(** An invariant of the tasks is kept by an event when the records that
    the add, the save and the completion write satisfy it. *)
Lemma Forall_step (P : Todo → Prop) (s : Store) (e : event) :
  (∀ text now stamp, ¬ blank text →
     P (mkTodo now text false None (Some stamp))) →
  (∀ t x st, P t → ¬ blank x → P (edited x st t)) →
  (∀ t ts, P t → completed t = false → P (done_at ts t)) →
  seed_satisfies P e → Forall P (todos s) → Forall P (todos (step s e)).
Proof.
  intros Hadd Hsave Hdone Hseed Hinv.
  destruct e as [[err|data]|text now stamp|i|i|i newText stamp| |i ts];
    simpl in Hseed; unfold step; try done.
  - unfold addBtn_click. destruct (truthy (trim text)) eqn:Hnb; simpl; [|done].
    apply truthy_trim_true in Hnb.
    apply Forall_app. split; [done|]. apply Forall_singleton. by apply Hadd.
  - apply Forall_forall. intros r [_ Hr]%list_elem_of_filter.
    by apply (proj1 (Forall_forall _ _) Hinv).
  - destruct (truthy (trim newText)) eqn:Hnb.
    + apply truthy_trim_true in Hnb. rewrite saveBtn_click_update by done.
      simpl. apply update_first_Forall; [|done]. intros t _ Ht. by apply Hsave.
    + apply truthy_trim_false in Hnb. by rewrite saveBtn_click_blank_eq.
  - rewrite completeBtn_click_update. simpl.
    apply update_first_Forall; [|done]. intros t _ Ht. unfold completing.
    destruct (completed t) eqn:Hc; [done|]. by apply Hdone.
Qed.

Lemma ids_step (s : Store) (e : event) :
  no_seed e →
  ids (todos (step s e)) `sublist_of` ids (todos s) ++ added_ids [e].
Proof.
  intros Hns.
  destruct e as [[err|data]|text now stamp|i|i|i newText stamp| |i ts];
    simpl in Hns; unfold step; try done.
  - change (added_ids [Fetched (Rejected err)]) with (@nil Z).
    by rewrite app_nil_r.
  - unfold addBtn_click, added_ids. simpl.
    destruct (truthy (trim text)); simpl.
    + unfold ids. by rewrite fmap_app.
    + by rewrite app_nil_r.
  - change (added_ids [DeleteClick i]) with (@nil Z). rewrite app_nil_r.
    unfold ids. apply fmap_sublist, sublist_filter.
  - change (added_ids [ChangeClick i]) with (@nil Z). by rewrite app_nil_r.
  - change (added_ids [SaveClick i newText stamp]) with (@nil Z).
    rewrite app_nil_r.
    by rewrite (ids_frame i _ _ (saveBtn_click_frame i newText stamp s)).
  - change (added_ids [CancelClick]) with (@nil Z). by rewrite app_nil_r.
  - change (added_ids [CompleteClick i ts]) with (@nil Z). rewrite app_nil_r.
    by rewrite (ids_frame i _ _ (completeBtn_click_frame i ts s)).
Qed.

Lemma added_ids_cons (e : event) (evs : list event) :
  added_ids (e :: evs) = added_ids [e] ++ added_ids evs.
Proof. unfold added_ids. simpl. by destruct e as [| text ? ?| | | | |];
  try destruct (truthy (trim text)). Qed.

End RunsKeep.

(** X7: a task stays in the store, with all its fields, through every
    run in which no seed list arrives, no delete names its identifier, no
    save with a text that is not blank names its identifier, and no
    completion names its identifier unless the task is completed. *)
Theorem record_kept
    (r : Todo) (s : Store) (evs : list event)
    (Hin : r ∈ todos s) (Hsp : Forall (spares r) evs) :
  r ∈ todos (run s evs).
Proof.
  revert s Hin. induction Hsp as [|e evs He Hevs IH]; intros s Hin; [done|].
  rewrite run_cons. by apply IH, spares_step.
Qed.

Lemma record_kept_witness :
  mkTodo 2 (js "B") true None None ∈ todos (run three_tasks sparing_run).
Proof.
  apply (record_kept (mkTodo 2 (js "B") true None None) three_tasks
           sparing_run).
  - simpl. apply list_elem_of_further, list_elem_of_here.
  - unfold sparing_run.
    repeat (apply Forall_cons; split;
            [simpl; first [exact I | discriminate | left; discriminate
                          | right; reflexivity]
            |]).
    apply Forall_nil_2.
Defined.

(** X2: no task ever gets a blank title: if the titles in the store and
    in every seed list that arrives are not blank, the titles after any
    run are not blank. *)
Theorem titles_never_blank
    (s : Store) (evs : list event)
    (Hinit : Forall titled (todos s))
    (Hseed : Forall (seed_satisfies titled) evs) :
  Forall titled (todos (run s evs)).
Proof.
  revert s Hinit. induction Hseed as [|e evs He Hevs IH]; intros s Hinit;
    [done|].
  rewrite run_cons. apply IH. by apply Forall_step.
Qed.

Lemma titles_never_blank_witness :
  Forall titled (todos (run three_tasks busy_run)).
Proof.
  apply (titles_never_blank three_tasks busy_run).
  - repeat constructor; unfold titled, blank; vm_compute; discriminate.
  - repeat constructor; unfold titled, blank; vm_compute; discriminate.
Defined.

(** X3: tasks are never reordered: in a run in which no seed list
    arrives, the identifiers in the store are, in order, among the
    identifiers it started with followed by those of the adds of the
    run. *)
Theorem ids_keep_order
    (s : Store) (evs : list event) (Hns : Forall no_seed evs) :
  ids (todos (run s evs)) `sublist_of` ids (todos s) ++ added_ids evs.
Proof.
  revert s. induction Hns as [|e evs He Hevs IH]; intros s.
  - simpl. by rewrite app_nil_r.
  - rewrite run_cons, added_ids_cons, app_assoc.
    etrans; [apply IH|]. apply sublist_app; [|done]. by apply ids_step.
Qed.

Lemma ids_keep_order_witness :
  ids (todos (run three_tasks sparing_run))
  `sublist_of` ids (todos three_tasks) ++ added_ids sparing_run.
Proof.
  apply (ids_keep_order three_tasks sparing_run).
  unfold sparing_run. repeat (apply Forall_cons; split; [exact I|]).
  apply Forall_nil_2.
Defined.

Section PageRuns.




End PageRuns.



(** ** How saves, completions and deletes compose *)

Section Compose.

Lemma saving_id x st (t : Todo) : id (saving x st t) = id t.
Proof. unfold saving. by destruct (truthy (trim x)). Qed.

Lemma saveBtn_click_saving (i : Z) (x st : jsstring) (s : Store) :
  saveBtn_click i x st s
  = mkStore (update_first i (saving x st) (todos s)) None (console s).
Proof.
  unfold saving. destruct (truthy (trim x)) eqn:Hx.
  - apply saveBtn_click_update. by apply truthy_trim_true.
  - rewrite saveBtn_click_blank_eq by (by apply truthy_trim_false).
    by rewrite update_first_id.
Qed.

Lemma update_first_elem_of_inv (i : Z) (f : Todo → Todo) (l : list Todo)
    (r : Todo) :
  r ∈ update_first i f l → r ∈ l ∨ ∃ t, t ∈ l ∧ id t = i ∧ r = f t.
Proof.
  induction l as [|t l IH]; [intros H; by apply elem_of_nil in H|]. simpl.
  destruct (decide (id t = i)) as [Hi|Hi]; intros [->|Hin]%elem_of_cons.
  - right. exists t. split; [apply list_elem_of_here | done].
  - left. by apply list_elem_of_further.
  - left. apply list_elem_of_here.
  - destruct (IH Hin) as [H|(u & Hu & Hid & Hr)].
    + left. by apply list_elem_of_further.
    + right. exists u. split; [by apply list_elem_of_further | done].
Qed.

End Compose.

(** X10: a save with a text that is not blank overrides what a
    completion or an earlier save did to the same identifier: the store is
    the one the save alone gives. *)
Theorem save_overrides
    (i : Z) (x st y st' ts : jsstring) (s : Store) (Hnb : ¬ blank x) :
  saveBtn_click i x st (completeBtn_click i ts s) = saveBtn_click i x st s
  ∧ saveBtn_click i x st (saveBtn_click i y st' s) = saveBtn_click i x st s.
Proof.
  rewrite !(saveBtn_click_update i x st) by done. split.
  - rewrite completeBtn_click_update; simpl. f_equal.
    rewrite update_first_twice by apply completing_id.
    apply update_first_ext. intros t _. simpl.
    unfold completing. by destruct (completed t).
  - rewrite saveBtn_click_saving; simpl. f_equal.
    rewrite update_first_twice by apply saving_id.
    apply update_first_ext. intros t _. simpl.
    unfold saving. by destruct (truthy (trim y)).
Qed.

Lemma save_overrides_witness :
  saveBtn_click 1 (js "B") (js "t2") (completeBtn_click 1 (js "t1") open_A)
  = saveBtn_click 1 (js "B") (js "t2") open_A
  ∧ saveBtn_click 1 (js "B") (js "t2")
      (saveBtn_click 1 (js "C") (js "t1") open_A)
    = saveBtn_click 1 (js "B") (js "t2") open_A.
Proof.
  apply (save_overrides 1 (js "B") (js "t2") (js "C") (js "t1") (js "t1")
           open_A).
  unfold blank. vm_compute. discriminate.
Defined.

(** X11: saves and completions for two different identifiers give the
    same store in either order. *)
Theorem updates_of_distinct_ids_commute
    (i j : Z) (x st y st' ti tj : jsstring) (s : Store) (Hij : i ≠ j) :
  completeBtn_click i ti (completeBtn_click j tj s)
  = completeBtn_click j tj (completeBtn_click i ti s)
  ∧ saveBtn_click i x st (completeBtn_click j tj s)
    = completeBtn_click j tj (saveBtn_click i x st s)
  ∧ saveBtn_click i x st (saveBtn_click j y st' s)
    = saveBtn_click j y st' (saveBtn_click i x st s).
Proof.
  rewrite !completeBtn_click_update, !saveBtn_click_saving.
  rewrite ?completeBtn_click_update. unfold set_todos; simpl.
  split_and!; f_equal; apply update_first_comm; try done;
    auto using completing_id, saving_id.
Qed.

Lemma updates_of_distinct_ids_commute_witness :
  completeBtn_click 1 (js "t1") (completeBtn_click 3 (js "t2") three_tasks)
  = completeBtn_click 3 (js "t2") (completeBtn_click 1 (js "t1") three_tasks)
  ∧ saveBtn_click 1 (js "X") (js "t3")
      (completeBtn_click 3 (js "t2") three_tasks)
    = completeBtn_click 3 (js "t2")
        (saveBtn_click 1 (js "X") (js "t3") three_tasks)
  ∧ saveBtn_click 1 (js "X") (js "t3")
      (saveBtn_click 3 (js "Y") (js "t4") three_tasks)
    = saveBtn_click 3 (js "Y") (js "t4")
        (saveBtn_click 1 (js "X") (js "t3") three_tasks).
Proof.
  apply (updates_of_distinct_ids_commute 1 3 (js "X") (js "t3") (js "Y")
           (js "t4") (js "t1") (js "t2") three_tasks).
  discriminate.
Defined.

(** X12: a delete gives the same store before or after a save or a
    completion for another identifier. *)
Theorem delete_commutes_with_updates
    (i j : Z) (x st ts : jsstring) (s : Store) (Hij : i ≠ j) :
  deleteBtn_click j (completeBtn_click i ts s)
  = completeBtn_click i ts (deleteBtn_click j s)
  ∧ deleteBtn_click j (saveBtn_click i x st s)
    = saveBtn_click i x st (deleteBtn_click j s).
Proof.
  rewrite !completeBtn_click_update, !saveBtn_click_saving.
  unfold deleteBtn_click, set_todos; simpl.
  split; f_equal; apply update_first_filter_ne; try done;
    auto using completing_id, saving_id.
Qed.

Lemma delete_commutes_with_updates_witness :
  deleteBtn_click 2 (completeBtn_click 1 (js "t1") three_tasks)
  = completeBtn_click 1 (js "t1") (deleteBtn_click 2 three_tasks)
  ∧ deleteBtn_click 2 (saveBtn_click 1 (js "X") (js "t3") three_tasks)
    = saveBtn_click 1 (js "X") (js "t3") (deleteBtn_click 2 three_tasks).
Proof.
  apply (delete_commutes_with_updates 1 2 (js "X") (js "t3") (js "t1")
           three_tasks).
  discriminate.
Defined.

(** ** More invariants of runs *)

Section CompletionTime.

Lemma completion_provenance_snoc (evs : list event) (e : event)
    (l : list Todo) :
  completion_provenance evs l → completion_provenance (evs ++ [e]) l.
Proof.
  intros Hp r ts Hin Hct. apply Exists_app. left. by apply Hp.
Qed.

Lemma completion_provenance_step (evs : list event) (s : Store) (e : event) :
  seed_satisfies (λ t, completedTime t = None) e →
  completion_provenance evs (todos s) →
  completion_provenance (evs ++ [e]) (todos (step s e)).
Proof.
  intros Hseed Hp.
  destruct e as [[err|data]|text now stamp|i|i|i newText stamp| |i ts];
    simpl in Hseed; unfold step; try by apply completion_provenance_snoc.
  - intros r ts Hin Hct.
    pose proof (proj1 (Forall_forall _ _) Hseed r Hin) as Hn.
    simpl in Hn. congruence.
  - unfold addBtn_click. destruct (truthy (trim text)); simpl;
      [|by apply completion_provenance_snoc].
    intros r ts [Hin|Hin%list_elem_of_singleton]%elem_of_app Hct.
    + by apply (completion_provenance_snoc evs _ _ Hp r ts).
    + subst r. discriminate.
  - intros r ts [_ Hin]%list_elem_of_filter Hct.
    by apply (completion_provenance_snoc evs _ _ Hp r ts).
  - rewrite saveBtn_click_saving; simpl. intros r ts Hin Hct.
    apply update_first_elem_of_inv in Hin as [Hin|(t & Hin & Hid & ->)].
    + by apply (completion_provenance_snoc evs _ _ Hp r ts).
    + unfold saving in *. destruct (truthy (trim newText)); [discriminate|].
      apply Exists_app. left.
      by apply (Hp t ts Hin Hct).
  - rewrite completeBtn_click_update; simpl. intros r ts' Hin Hct.
    apply update_first_elem_of_inv in Hin as [Hin|(t & Hin & Hid & ->)].
    + by apply (completion_provenance_snoc evs _ _ Hp r ts').
    + unfold completing in *. destruct (completed t).
      * by apply (completion_provenance_snoc evs _ _ Hp t ts').
      * simpl in Hct. injection Hct as <-.
        apply Exists_app. right. apply Exists_cons_hd. by simpl.
Qed.

End CompletionTime.

(** X13: in a run from the initial state in which the seed lists carry
    no completion timestamp, every completion timestamp in the store was
    written by a click on the complete button of a task with that
    identifier, at that time. *)
Theorem completion_time_written_by_complete
    (evs : list event) (r : Todo) (ts : jsstring)
    (Hseed : Forall (seed_satisfies (λ t, completedTime t = None)) evs)
    (Hin : r ∈ todos (run init evs))
    (Hct : completedTime r = Some ts) :
  Exists (completed_by r ts) evs.
Proof.
  revert r ts Hin Hct. fold (completion_provenance evs (todos (run init evs))).
  induction evs as [|e evs IH] using rev_ind.
  - intros r ts Hin. by apply elem_of_nil in Hin.
  - apply Forall_app in Hseed as [Hseed He]. rewrite Forall_singleton in He.
    rewrite run_snoc. apply completion_provenance_step; [done|]. by apply IH.
Qed.

Lemma completion_time_written_by_complete_witness :
  Exists (completed_by (mkTodo 1001 (js "B") true (Some (js "t4"))
                          (Some (js "t1"))) (js "t4")) manual_run.
Proof.
  apply (completion_time_written_by_complete manual_run
           (mkTodo 1001 (js "B") true (Some (js "t4")) (Some (js "t1")))
           (js "t4")).
  - unfold manual_run. repeat (apply Forall_cons; split; [exact I|]).
    apply Forall_nil_2.
  - vm_compute. apply list_elem_of_further, list_elem_of_here.
  - reflexivity.
Defined.

(** X14: if in the store and in every seed list that arrives a task is
    completed exactly when it has a completion timestamp, the same holds
    after any run. *)
Theorem completed_iff_timestamp
    (s : Store) (evs : list event)
    (Hinit : Forall stamped (todos s))
    (Hseed : Forall (seed_satisfies stamped) evs) :
  Forall stamped (todos (run s evs)).
Proof.
  revert s Hinit. induction Hseed as [|e evs He Hevs IH]; intros s Hinit;
    [done|].
  rewrite run_cons. apply IH. apply Forall_step; [| | |done..].
  - intros text now stamp _. unfold stamped; simpl.
    split; [done | by intros [x Hx]].
  - intros t x st _ _. unfold stamped; simpl.
    split; [done | by intros [u Hu]].
  - intros t ts _ _. unfold stamped; simpl. split; [by eexists | done].
Qed.

Lemma completed_iff_timestamp_witness :
  Forall stamped (todos (run open_A manual_run)).
Proof.
  apply (completed_iff_timestamp open_A manual_run).
  - simpl. apply Forall_cons; split; [|apply Forall_nil_2].
    split; [discriminate | by intros [x Hx]].
  - unfold manual_run. repeat (apply Forall_cons; split; [exact I|]).
    apply Forall_nil_2.
Defined.

(** X15: identifiers stay pairwise distinct through a run in which every
    add reads a clock value that no task in the store carries and every
    seed list has pairwise distinct identifiers. *)
Theorem ids_unique_when_fresh
    (s : Store) (evs : list event)
    (Hfresh : fresh_run s evs) (Hnd : NoDup (ids (todos s))) :
  NoDup (ids (todos (run s evs))).
Proof.
  by apply ids_unique_run.
Qed.

Lemma ids_unique_when_fresh_witness :
  NoDup (ids (todos (run three_tasks sparing_run))).
Proof.
  apply (ids_unique_when_fresh three_tasks sparing_run).
  - vm_compute. repeat split; intros H;
      repeat (apply elem_of_cons in H as [H|H]; [discriminate|]);
      by apply elem_of_nil in H.
  - apply (bool_decide_unpack _). by vm_compute.
Defined.

(** ** The identifier on a button *)

Section DataId.

Lemma trimStart_keep (s : jsstring) :
  Forall (λ c, isTrimmed c = false) s → trimStart s = s.
Proof. destruct 1 as [|c s Hc Hs]; [done|]. simpl. by rewrite Hc. Qed.

Lemma trim_keep (s : jsstring) :
  Forall (λ c, isTrimmed c = false) s → trim s = s.
Proof.
  intros H. unfold trim, trimEnd. rewrite (trimStart_keep s H).
  rewrite trimStart_keep by by apply Forall_reverse.
  apply reverse_involutive.
Qed.

Lemma units_not_trimmed (d : Decimal.uint) :
  Forall (λ c, isTrimmed c = false) (units_of_uint d).
Proof. induction d; simpl; by constructor. Qed.

Lemma uint_of_units_of_uint (d : Decimal.uint) :
  uint_of_units (units_of_uint d) = Some d.
Proof. induction d as [|d IH|d IH|d IH|d IH|d IH|d IH|d IH|d IH|d IH|d IH];
  [done|..]; cbn [units_of_uint uint_of_units]; by rewrite IH. Qed.

Lemma units_head (d : Decimal.uint) :
  d ≠ Decimal.Nil →
  ∃ c r, units_of_uint d = c :: r ∧ c ≠ 0x2D%N ∧ c ≠ 0x2B%N.
Proof.
  intros Hd. destruct d; [done|..]; simpl; eexists _, _;
    (split; [reflexivity|]); split; discriminate.
Qed.

Lemma StringToNumber_digits (c : N) (r : jsstring) (d : Decimal.uint) :
  trim (c :: r) = c :: r → c ≠ 0x2D%N → c ≠ 0x2B%N →
  uint_of_units (c :: r) = Some d →
  StringToNumber (c :: r)
  = if bool_decide (safe_integer (Z.of_uint d)) then Some (Z.of_uint d)
    else None.
Proof.
  intros Ht Hm%N.eqb_neq Hp%N.eqb_neq Hd. unfold StringToNumber.
  rewrite Ht, Hm, Hp. by rewrite Hd.
Qed.

Lemma StringToNumber_minus (c : N) (r : jsstring) (d : Decimal.uint) :
  trim (0x2D%N :: c :: r) = 0x2D%N :: c :: r →
  uint_of_units (c :: r) = Some d →
  StringToNumber (0x2D%N :: c :: r)
  = if bool_decide (safe_integer (- Z.of_uint d)) then Some (- Z.of_uint d)%Z
    else None.
Proof.
  intros Ht Hd. unfold StringToNumber. rewrite Ht.
  change (0x2D =? 0x2D)%N with true. cbv iota beta. by rewrite Hd.
Qed.

Lemma StringToNumber_of_int (n : Decimal.int) :
  match n with Decimal.Pos d | Decimal.Neg d => d ≠ Decimal.Nil end →
  safe_integer (Z.of_int n) →
  StringToNumber
    match n with
    | Decimal.Pos d => units_of_uint d
    | Decimal.Neg d => 0x2D%N :: units_of_uint d
    end
  = Some (Z.of_int n).
Proof.
  destruct n as [d|d]; intros Hd Hsafe; simpl in Hsafe |- *;
    destruct (units_head d Hd) as (c & r & Hu & Hm & Hp).
  - pose proof (units_not_trimmed d) as Hnt.
    pose proof (uint_of_units_of_uint d) as Hrt. rewrite Hu in *.
    rewrite (StringToNumber_digits c r d); [|by apply trim_keep|done..].
    by rewrite bool_decide_true.
  - pose proof (units_not_trimmed d) as Hnt.
    pose proof (uint_of_units_of_uint d) as Hrt. rewrite Hu in *.
    rewrite (StringToNumber_minus c r d); [|apply trim_keep|done].
    + by rewrite bool_decide_true.
    + by constructor.
Qed.

End DataId.

(** X16: the identifier written into the [data-id] attribute of a button
    is read back by [Number] as the same identifier, for every safe
    integer: the click handlers act on the identifier of the task whose
    button was rendered. *)
Theorem data_id_round_trip (z : Z) (Hsafe : safe_integer z) :
  StringToNumber (NumberToString z) = Some z.
Proof.
  unfold NumberToString. rewrite <- (DecimalZ.of_to z) at 2.
  rewrite <- (DecimalZ.of_to z) in Hsafe.
  apply StringToNumber_of_int; [|done].
  destruct z; simpl; [done|apply DecimalPos.Unsigned.to_uint_nonnil..].
Qed.

Lemma data_id_round_trip_witness :
  StringToNumber (NumberToString 1700000000123) = Some 1700000000123%Z.
Proof.
  apply (data_id_round_trip 1700000000123).
  unfold safe_integer. vm_compute. discriminate.
Defined.

(** ** The rendered list *)

Section Render.

Lemma startsWith_app (p rest : jsstring) : startsWith p (p ++ rest) = true.
Proof.
  induction p as [|c p IH]; [done|]. simpl. by rewrite N.eqb_refl, IH.
Qed.

Lemma beginsWithEditInput_renderTodo (m : option Z) (t : Todo) :
  beginsWithEditInput (renderTodo m t) = isEditing m t.
Proof.
  unfold beginsWithEditInput, renderTodo.
  destruct (isEditing m t); cbn [innerHTML].
  - unfold editHtml. apply startsWith_app.
  - by vm_compute.
Qed.

Lemma isEditing_true (m : option Z) (t : Todo) :
  isEditing m t = true ↔ m = Some (id t).
Proof. unfold isEditing. apply bool_decide_eq_true. Qed.

Lemma edit_fields_count (m : option Z) (l : list Todo) :
  length (filter (λ li, beginsWithEditInput li = true) (renderTodo m <$> l))
  = length (filter (λ t, m = Some (id t)) l).
Proof.
  induction l as [|t l IH]; [done|]. rewrite fmap_cons, !filter_cons.
  rewrite beginsWithEditInput_renderTodo.
  destruct (decide (m = Some (id t))) as [Hm|Hm].
  - rewrite decide_True by by apply isEditing_true. simpl. by rewrite IH.
  - rewrite decide_False; [done|]. by rewrite isEditing_true.
Qed.

Lemma filter_none {A} (P : A → Prop) `{!∀ x, Decision (P x)} (l : list A) :
  Forall (λ x, ¬ P x) l → filter P l = [].
Proof.
  induction 1 as [|x l Hx Hl IH]; [done|]. by rewrite filter_cons_False.
Qed.

Lemma unique_id_count (i : Z) (l : list Todo) :
  NoDup (ids l) → length (filter (λ t, Some i = Some (id t)) l) ≤ 1.
Proof.
  unfold ids. induction l as [|t l IH]; [simpl; lia|].
  rewrite fmap_cons, NoDup_cons, filter_cons. intros [Hnotin Hnd].
  destruct (decide (Some i = Some (id t))) as [Hi|Hi]; [|by apply IH].
  simpl. rewrite filter_none; [simpl; lia|].
  apply Forall_forall. intros r Hr Heq.
  apply Hnotin. injection Hi as ->. injection Heq as ->.
  by apply list_elem_of_fmap_2.
Qed.

End Render.

(** X17: [renderTodos] makes one list item per task, in the order of the
    tasks; the item carries the class [completed] exactly when the task is
    completed, and its markup begins with the edit field exactly when the
    identifier of the task is the editing marker, whatever the title
    contains. *)
Theorem render_follows_store (s : Store) (k : nat) :
  length (renderTodos s) = length (todos s)
  ∧ (∀ li : Li, renderTodos s !! k = Some li →
       ∃ t : Todo,
         todos s !! k = Some t
         ∧ classCompleted li = completed t
         ∧ (beginsWithEditInput li = true ↔ editingId s = Some (id t)))
  ∧ (∀ t : Todo, todos s !! k = Some t →
       renderTodos s !! k = Some (renderTodo (editingId s) t)).
Proof.
  unfold renderTodos. split_and!.
  - apply length_fmap.
  - intros li Hli. rewrite list_lookup_fmap in Hli.
    destruct (todos s !! k) as [t|]; [|done]. injection Hli as <-.
    exists t. split_and!; [done..|].
    by rewrite beginsWithEditInput_renderTodo, isEditing_true.
  - intros t Ht. by rewrite list_lookup_fmap, Ht.
Qed.

(** X18: the number of list items made with the edit template (those
    whose markup begins with the edit input) is the number of tasks whose
    identifier is the editing marker: none when there is no marker, at
    most one when the identifiers in the store are pairwise distinct. *)
Theorem edit_fields_counted (s : Store) :
  length (filter (λ li, beginsWithEditInput li = true) (renderTodos s))
  = length (filter (λ t, editingId s = Some (id t)) (todos s))
  ∧ (editingId s = None →
     filter (λ li, beginsWithEditInput li = true) (renderTodos s) = [])
  ∧ (NoDup (ids (todos s)) →
     length (filter (λ li, beginsWithEditInput li = true) (renderTodos s)) ≤ 1).
Proof.
  unfold renderTodos. split_and!.
  - apply edit_fields_count.
  - intros Hm. apply length_zero_iff_nil. rewrite edit_fields_count, Hm.
    rewrite filter_none; [done|]. apply Forall_forall. by intros t _.
  - intros Hnd. rewrite edit_fields_count.
    destruct (editingId s) as [i|]; [by apply unique_id_count|].
    rewrite filter_none; [simpl; lia|]. apply Forall_forall. by intros t _.
Qed.

Lemma edit_fields_counted_witness :
  length (filter (λ li, beginsWithEditInput li = true) (renderTodos editing_A)) ≤ 1.
Proof.
  apply (edit_fields_counted editing_A).
  apply (bool_decide_unpack _). by vm_compute.
Defined.

(** X19: a seed list that arrives while a task is being edited replaces
    the tasks and leaves the editing marker; when no task of the list has
    the marker's identifier, no list item is made with the edit template
    (the markup of none begins with the edit input) although the marker is
    still set. *)
Theorem seed_can_orphan_marker
    (data : list Todo) (s : Store)
    (Hnone : Forall (λ t, editingId s ≠ Some (id t)) data) :
  fetchTodos (Outcome (Parsed data)) (Listed s)
  = Listed (mkStore data (editingId s) (console s))
  ∧ filter (λ li, beginsWithEditInput li = true)
      (renderTodos (mkStore data (editingId s) (console s))) = [].
Proof.
  split; [done|]. apply length_zero_iff_nil.
  unfold renderTodos. rewrite edit_fields_count. simpl.
  by rewrite filter_none.
Qed.

Lemma seed_can_orphan_marker_witness :
  fetchTodos (Outcome (Parsed [mkTodo 5 (js "E") false None None]))
    (Listed editing_A)
  = Listed (mkStore [mkTodo 5 (js "E") false None None] (editingId editing_A)
                    (console editing_A))
  ∧ filter (λ li, beginsWithEditInput li = true)
      (renderTodos
         (mkStore [mkTodo 5 (js "E") false None None] (editingId editing_A)
                  (console editing_A)))
    = [].
Proof.
  apply (seed_can_orphan_marker [mkTodo 5 (js "E") false None None]
           editing_A).
  apply Forall_cons; split; [discriminate | apply Forall_nil_2].
Defined.
